(** * Boot-time initcall analysis: the timeline engine of
      [analyze-initcall-debug.py]

    A shallow embedding of the Run / Entity data model, of the ingestion
    loop over the parsed log lines, of the probe lane assignment of the
    boot chart and of the figures of the two reports, followed by the
    properties of the engine.

    Python integers are [Z].  Timestamps and durations that come out of
    the regular expressions ([[0-9\s]+\.[0-9]+] and [[0-9]+]) carry no
    sign, so the events hold them as [N]; return codes ([[\-0-9]+]) are
    signed.  The dictionaries [initcalls] and [probes] are iterated in
    insertion order ([.values()]), so they are association lists; the
    [slots] dictionary of the boot chart is only read and written by
    key, so it is a [gmap]. *)

From stdpp Require Import gmap strings list sorting.

Local Open Scope Z_scope.

(** ** Exceptions *)

(** The Python exceptions the modelled code can raise. *)
Inductive exn : Set :=
| IndexError      (* [l[-1]] or [l[0]] on an empty list *)
| AttributeError  (* attribute access on [None] *)
| ValueError      (* [max] of an empty list *)
| SystemExit (code : Z).

Inductive result (A : Type) : Type :=
| Ok (a : A)
| Raise (e : exn).
Arguments Ok {A} a.
Arguments Raise {A} e.

#[global] Instance result_ret : MRet result := fun A a => Ok a.
#[global] Instance result_bind : MBind result := fun A B f m =>
  match m with
  | Ok a => f a
  | Raise e => Raise e
  end.
#[global] Instance result_fmap : FMap result := fun A B f m =>
  match m with
  | Ok a => Ok (f a)
  | Raise e => Raise e
  end.

(** [list(filter(p, l))] for a predicate that may raise: the elements are
    tested from left to right and the first exception ends the scan. *)
Fixpoint filterM {A : Type} (p : A -> result bool) (l : list A) : result (list A) :=
  match l with
  | [] => Ok []
  | x :: l' =>
      b ← p x;
      k ← filterM p l';
      Ok (if (b : bool) then x :: k else k)
  end.

(** [sum(l)] and [max(l)] on lists of integers. *)
Definition sum (l : list Z) : Z := foldr Z.add 0 l.

Definition py_max (l : list Z) : result Z :=
  match l with
  | [] => Raise ValueError
  | x :: l' => Ok (foldl Z.max x l')
  end.

Definition ERRCODE_PROBE_DEFER : Z := 517.

(** ** Run *)

Module Run.

Record t : Set := mk {
  start_time : Z;
  end_time : Z;
  duration : Z;
  retval : Z;
  ended : bool
}.

(** [Run.__init__(start_time, end_time=-1, duration=0, retval=0)]. *)
Definition init (start_time end_time duration retval : Z) : t :=
  {| start_time := start_time;
     end_time := end_time;
     duration := duration;
     retval := retval;
     ended := 0 <=? end_time |}.

(** [Run(start_time)]: every other argument at its default. *)
Definition started (start_time : Z) : t := init start_time (-1) 0 0.

(** The three property setters. *)
Definition set_end_time (r : t) (time : Z) : t :=
  {| start_time := start_time r;
     end_time := time;
     duration := duration r;
     retval := retval r;
     ended := true |}.

Definition set_duration (r : t) (time : Z) : t :=
  {| start_time := start_time r;
     end_time := end_time r;
     duration := time;
     retval := retval r;
     ended := ended r |}.

Definition set_retval (r : t) (val : Z) : t :=
  {| start_time := start_time r;
     end_time := end_time r;
     duration := duration r;
     retval := val;
     ended := ended r |}.

(** [abs(retval) == ERRCODE_PROBE_DEFER] *)
Definition deferred (r : t) : bool := Z.abs (retval r) =? ERRCODE_PROBE_DEFER.

Definition running (r : t) : bool := negb (ended r) || deferred r.

Definition failed (r : t) : bool := negb (retval r =? 0) && negb (running r).

End Run.

(** ** Entity *)

Module Entity.

Record t : Set := mk {
  name : string;
  color : Z * Z * Z;
  runs : list Run.t
}.

Definition with_runs (e : t) (rs : list Run.t) : t :=
  {| name := name e; color := color e; runs := rs |}.

(** [Entity.__init__(name, start_time=0, end_time=0, duration=0, retval=0)];
    [color] stands for the three [random.randint(0, 255)] the constructor
    draws. *)
Definition init (name : string) (color : Z * Z * Z)
    (start_time end_time duration retval : Z) : t :=
  {| name := name;
     color := color;
     runs := [Run.init start_time end_time duration retval] |}.

(** [self._runs[0]] and [self._runs[-1]] *)
Definition first_run (e : t) : result Run.t :=
  match head (runs e) with
  | Some r => Ok r
  | None => Raise IndexError
  end.

Definition last_run (e : t) : result Run.t :=
  match last (runs e) with
  | Some r => Ok r
  | None => Raise IndexError
  end.

Definition first_start_time (e : t) : result Z := Run.start_time <$> first_run e.
Definition last_start_time (e : t) : result Z := Run.start_time <$> last_run e.
Definition first_end_time (e : t) : result Z := Run.end_time <$> first_run e.
Definition last_end_time (e : t) : result Z := Run.end_time <$> last_run e.

Definition duration (e : t) : Z := sum (Run.duration <$> runs e).

Definition wasted_time (e : t) : Z :=
  sum (Run.duration <$> filter (fun x => Run.failed x || Run.deferred x = true) (runs e)).

Definition retval (e : t) : result Z := Run.retval <$> last_run e.
Definition failed (e : t) : result bool := Run.failed <$> last_run e.
Definition running (e : t) : result bool := Run.running <$> last_run e.

Definition running_at (e : t) (time : Z) : bool :=
  existsb (fun r => (Run.start_time r <? time) && (time <? Run.end_time r)) (runs e).

Definition addStart (e : t) (start_time : Z) : t :=
  with_runs e (runs e ++ [Run.started start_time]).

Definition addEnd (e : t) (end_time duration retval : Z) : result t :=
  r ← last_run e;
  if 0 <=? Run.end_time r
  then Ok (with_runs e (runs e ++ [Run.init (-1) end_time duration retval]))
  else
    let r' := Run.set_retval (Run.set_duration (Run.set_end_time r end_time) duration) retval in
    Ok (with_runs e (<[pred (length (runs e)) := r']> (runs e))).

Definition addRun (e : t) (start_time end_time duration retval : Z) : t :=
  with_runs e (runs e ++ [Run.init start_time end_time duration retval]).

End Entity.

(** ** The three kinds of entity *)

Module Initcall.

Record t : Set := mk {
  entity : Entity.t;
  module : string
}.

(** [Initcall.__init__(name, start_time, module)] calls
    [Entity.__init__(name, start_time)]: the end time of the first run is
    the default of [Entity.__init__], which is 0. *)
Definition init (name : string) (color : Z * Z * Z) (start_time : Z) (module : string) : t :=
  {| entity := Entity.init name color start_time 0 0 0; module := module |}.

Definition with_entity (i : t) (e : Entity.t) : t :=
  {| entity := e; module := module i |}.

Definition addStart (i : t) (start_time : Z) : t :=
  with_entity i (Entity.addStart (entity i) start_time).

Definition addEnd (i : t) (end_time duration retval : Z) : result t :=
  with_entity i <$> Entity.addEnd (entity i) end_time duration retval.

End Initcall.

Module Probe.

(** A probe has no field of its own. *)
Abbreviation t := Entity.t (only parsing).

Definition init (name : string) (color : Z * Z * Z) (start_time duration retval : Z) : t :=
  Entity.init name color start_time (start_time + duration) duration retval.

Definition deferred_probe_pending (p : t) : result bool :=
  Run.deferred <$> Entity.last_run p.

Definition num_deferred_probes (p : t) : nat :=
  length (filter (fun r => Run.deferred r = true) (Entity.runs p)).

End Probe.

Module Init.

Abbreviation t := Entity.t (only parsing).

Definition init (name : string) (color : Z * Z * Z) (start_time : Z) : t :=
  Entity.init name color start_time 0 0 0.

End Init.

(** ** Dictionaries in insertion order *)

Module PyDict.

Definition t (V : Type) : Type := list (string * V).

(** [d.get(k)] : [None] when [k not in d.keys()]. *)
Fixpoint get {V : Type} (d : t V) (k : string) : option V :=
  match d with
  | [] => None
  | (k', v) :: d' => if String.eqb k k' then Some v else get d' k
  end.

(** [d[k] = v]: a key that is present keeps its position, a new key goes
    to the end.  It also stands for a method call that mutates the object
    stored under [k]. *)
Fixpoint set {V : Type} (d : t V) (k : string) (v : V) : t V :=
  match d with
  | [] => [(k, v)]
  | (k', v') :: d' => if String.eqb k k' then (k, v) :: d' else (k', v') :: set d' k v
  end.

Definition keys {V : Type} (d : t V) : list string := d.*1.
Definition values {V : Type} (d : t V) : list V := d.*2.

End PyDict.

(** ** The event feed *)

(** One constructor per branch of the ingestion loop: the line holds the
    sentinel of the branch, the regular expression of the branch matches it
    and the conversions of the captured groups succeed.  The time is
    [int(float(group 1) * 1000000.0)]; the module of a call is the fourth
    group without its brackets, empty when the group is absent.  The
    patterns start differently after the time stamp, so a line matches one
    branch at most.  Lines on which no pattern matches, or a conversion
    fails, print a diagnostic at most and are not part of the feed. *)
Inductive event : Set :=
| VersionSeen (text : string)
| MachineSeen (text : string)
| CmdlineSeen (text : string)
| CallStarted (name : string) (time : N) (module : string)
| CallReturned (name : string) (time : N) (retval : Z) (duration : N)
| ProbeReturned (name : string) (time : N) (retval : Z) (duration : N)
| InitStarted (name : string) (time : N).

(** ** The engine state *)

Record state : Type := mkState {
  initcalls : PyDict.t Initcall.t;
  probes : PyDict.t Probe.t;
  init : option Init.t;
  version : string;
  machine : string;
  cmdline : string;
  stderr : list string;  (* the lines printed to [sys.stderr] *)
  drawn : nat            (* how many times [random.randint] was called *)
}.

Definition initial : state :=
  {| initcalls := [];
     probes := [];
     init := None;
     version := "Unknown";
     machine := "Unknown";
     cmdline := "Unknown";
     stderr := [];
     drawn := 0 |}.

Definition set_initcalls (st : state) (d : PyDict.t Initcall.t) : state :=
  mkState d (probes st) (init st) (version st) (machine st) (cmdline st) (stderr st) (drawn st).
Definition set_probes (st : state) (d : PyDict.t Probe.t) : state :=
  mkState (initcalls st) d (init st) (version st) (machine st) (cmdline st) (stderr st) (drawn st).
Definition set_init (st : state) (i : option Init.t) : state :=
  mkState (initcalls st) (probes st) i (version st) (machine st) (cmdline st) (stderr st) (drawn st).
Definition set_version (st : state) (s : string) : state :=
  mkState (initcalls st) (probes st) (init st) s (machine st) (cmdline st) (stderr st) (drawn st).
Definition set_machine (st : state) (s : string) : state :=
  mkState (initcalls st) (probes st) (init st) (version st) s (cmdline st) (stderr st) (drawn st).
Definition set_cmdline (st : state) (s : string) : state :=
  mkState (initcalls st) (probes st) (init st) (version st) (machine st) s (stderr st) (drawn st).
Definition eprint (st : state) (s : string) : state :=
  mkState (initcalls st) (probes st) (init st) (version st) (machine st) (cmdline st)
          (stderr st ++ [s]) (drawn st).
Definition set_drawn (st : state) (n : nat) : state :=
  mkState (initcalls st) (probes st) (init st) (version st) (machine st) (cmdline st) (stderr st) n.

(** The diagnostic of a return whose call was never seen. *)
Definition never_recorded (name : string) : string :=
  ("Detected return for initcall " +:+ name +:+ ", for which a call was never recorded")%string.

(** How an iteration of the loop ends. *)
Inductive control : Set := Continue | Break.

Section Engine.

(** [randint n] is what the [n]-th call of [random.randint(0, 255)]
    returns in this execution. *)
Variable randint : nat -> Z.

(** [args.before_init] *)
Variable before_init : bool.

(** The colour of a new entity: three draws. *)
Definition fresh_color (st : state) : (Z * Z * Z) * state :=
  let n := drawn st in
  ((randint n, randint (S n), randint (S (S n))), set_drawn st (S (S (S n)))).

(** The body of the loop, for one line. *)
Definition step (st : state) (ev : event) : state * control :=
  match ev with
  | VersionSeen text => (set_version st text, Continue)
  | MachineSeen text => (set_machine st text, Continue)
  | CmdlineSeen text => (set_cmdline st text, Continue)
  | CallStarted name time module =>
      match PyDict.get (initcalls st) name with
      | None =>
          let '(c, st1) := fresh_color st in
          (set_initcalls st1
             (PyDict.set (initcalls st1) name (Initcall.init name c (Z.of_N time) module)),
           Continue)
      | Some i =>
          (set_initcalls st
             (PyDict.set (initcalls st) name (Initcall.addStart i (Z.of_N time))),
           Continue)
      end
  | CallReturned name time retval duration =>
      match PyDict.get (initcalls st) name with
      | None => (eprint st (never_recorded name), Continue)
      | Some i =>
          match Initcall.addEnd i (Z.of_N time) (Z.of_N duration) retval with
          | Ok i' => (set_initcalls st (PyDict.set (initcalls st) name i'), Continue)
          | Raise _ => (st, Continue)  (* [finally: continue] drops the exception *)
          end
      end
  | ProbeReturned name time retval duration =>
      match PyDict.get (probes st) name with
      | None =>
          let '(c, st1) := fresh_color st in
          (set_probes st1
             (PyDict.set (probes st1) name
                (Probe.init name c (Z.of_N time - Z.of_N duration) (Z.of_N duration) retval)),
           Continue)
      | Some p =>
          (set_probes st
             (PyDict.set (probes st) name
                (Entity.addRun p (Z.of_N time - Z.of_N duration) (Z.of_N time)
                   (Z.of_N duration) retval)),
           Continue)
      end
  | InitStarted name time =>
      match init st with
      | Some _ => (st, Continue)  (* [not init] is false: the branch is skipped *)
      | None =>
          let '(c, st1) := fresh_color st in
          (set_init st1 (Some (Init.init name c (Z.of_N time))),
           if before_init then Break else Continue)
      end
  end.

(** [for line in args.dmesg: ...] *)
Fixpoint ingest (st : state) (feed : list event) : state :=
  match feed with
  | [] => st
  | ev :: feed' =>
      match step st ev with
      | (st', Continue) => ingest st' feed'
      | (st', Break) => st'
      end
  end.

(** The whole scan, from the initial values of the globals. *)
Definition scan (feed : list event) : state := ingest initial feed.

End Engine.

(** ** Sorting *)

(** [sorted(l, key=key, reverse=reverse)]: the keys are computed first, from
    left to right; the sort is stable in both directions. *)
Fixpoint insert_keyed {A : Type} (reverse : bool) (kx : Z * A) (l : list (Z * A)) : list (Z * A) :=
  match l with
  | [] => [kx]
  | ky :: l' =>
      if (if reverse then ky.1 <=? kx.1 else kx.1 <=? ky.1)
      then kx :: l
      else ky :: insert_keyed reverse kx l'
  end.

Definition sort_keyed {A : Type} (reverse : bool) (l : list (Z * A)) : list (Z * A) :=
  foldr (insert_keyed reverse) [] l.

Definition sorted {A : Type} (key : A -> result Z) (reverse : bool) (l : list A) : result (list A) :=
  ks ← mapM (fun x => k ← key x; Ok (k, x)) l;
  Ok ((sort_keyed reverse ks).*2).

(** ** The probe lanes of the boot chart *)

(** A rectangle of the chart: the probe, its run and the lane. *)
Definition rect : Set := string * Run.t * Z.

Section Slots.

Variable all_probes : PyDict.t Probe.t.

(** The test of the [while]: some probe runs at [time] and holds lane
    [ypos] in [slots] ([slots.get(j.name, -1) == ypos]). *)
Definition taken (slots : gmap string Z) (time ypos : Z) : bool :=
  negb (Nat.eqb (length (filter
          (fun j : Probe.t =>
             Entity.running_at j time && (default (-1) (slots !! Entity.name j) =? ypos) = true)
          (PyDict.values all_probes))) 0).

(** [while taken: ypos = ypos + 1], with a bound on the iterations. *)
Fixpoint free_lane (fuel : nat) (slots : gmap string Z) (time ypos : Z) : option Z :=
  match fuel with
  | O => None
  | S fuel' =>
      if taken slots time ypos
      then free_lane fuel' slots time (ypos + 1)
      else Some ypos
  end.

(** The body of the inner [for], for the run [r] of [d]. *)
Definition place_run (fuel : nat) (d : Probe.t) (acc : gmap string Z * list rect)
    (r : Run.t) : option (gmap string Z * list rect) :=
  ypos ← free_lane fuel acc.1 (Run.start_time r) 0;
  Some (<[Entity.name d := ypos]> acc.1, acc.2 ++ [(Entity.name d, r, ypos)]).

Fixpoint place_runs (fuel : nat) (d : Probe.t) (acc : gmap string Z * list rect)
    (rs : list Run.t) : option (gmap string Z * list rect) :=
  match rs with
  | [] => Some acc
  | r :: rs' => acc' ← place_run fuel d acc r; place_runs fuel d acc' rs'
  end.

Fixpoint place_probes (fuel : nat) (acc : gmap string Z * list rect)
    (ds : list Probe.t) : option (gmap string Z * list rect) :=
  match ds with
  | [] => Some acc
  | d :: ds' => acc' ← place_runs fuel d acc (Entity.runs d); place_probes fuel acc' ds'
  end.

End Slots.

(** [if len(probes) > 0: slots = {}; for d in sorted(...): for i,r in
    enumerate(d.runs): ...].  The result is the final [slots] and the
    rectangles in the order they are printed; [None] inside [Ok] means that
    a [while] was cut by the bound. *)
Definition plot_probes (fuel : nat) (ps : PyDict.t Probe.t)
    : result (option (gmap string Z * list rect)) :=
  ds ← sorted Entity.first_start_time false (PyDict.values ps);
  Ok (place_probes ps fuel (∅, []) ds).

(** A [while] of [plot_probes] ends within this number of tests. *)
Definition lanes_bound (ps : PyDict.t Probe.t) : nat := S (length ps).

(** ** The figures of the reports *)

(** [init.last_start_time], where [init] may still be [None]. *)
Definition init_last_start_time (i : option Init.t) : result Z :=
  match i with
  | None => Raise AttributeError
  | Some e => Entity.last_start_time e
  end.

(** [max([k.last_end_time for k in initcalls.values()]
        + [k.last_end_time for k in probes.values()])] *)
Definition boot_end (st : state) : result Z :=
  a ← mapM (fun k => Entity.last_end_time (Initcall.entity k)) (PyDict.values (initcalls st));
  b ← mapM Entity.last_end_time (PyDict.values (probes st));
  py_max (a ++ b).

(** [list(initcalls.values()) + list(probes.values())] *)
Definition all_entities (st : state) : list Entity.t :=
  (Initcall.entity <$> PyDict.values (initcalls st)) ++ PyDict.values (probes st).

Record text_report : Type := mkText {
  t_version : string;
  t_machine : string;
  t_cmdline : string;
  t_initcalls : nat;
  t_before_userspace : nat;
  t_after_userspace : nat;
  t_deferred_probe_pending : nat;
  t_failed : nat;
  t_total_boot_ms : Z;
  t_init_start_ms : Z;
  t_top_initcalls : list (string * Z);
  t_top_probes : list (string * Z);
  t_failed_list : list (string * Z)
}.

(** The plain-text branch, statement by statement. *)
Definition text (st : state) : result text_report :=
  before ← filterM (fun d : Initcall.t =>
                      a ← Entity.last_start_time (Initcall.entity d);
                      b ← init_last_start_time (init st);
                      Ok (a <=? b))
                   (PyDict.values (initcalls st));
  after ← filterM (fun d : Initcall.t =>
                     a ← Entity.last_start_time (Initcall.entity d);
                     b ← init_last_start_time (init st);
                     Ok (b <? a))
                  (PyDict.values (initcalls st));
  pending ← filterM Probe.deferred_probe_pending (PyDict.values (probes st));
  failures ← filterM Entity.failed (all_entities st);
  total ← boot_end st;
  start ← init_last_start_time (init st);
  top_i ← sorted (fun k => Ok (Entity.duration (Initcall.entity k))) true
                 (PyDict.values (initcalls st));
  top_p ← sorted (fun k => Ok (Entity.duration k)) true (PyDict.values (probes st));
  failures' ← filterM Entity.failed (all_entities st);
  failed_list ← mapM (fun d => rv ← Entity.retval d; Ok (Entity.name d, Z.abs rv)) failures';
  Ok {| t_version := version st;
        t_machine := machine st;
        t_cmdline := cmdline st;
        t_initcalls := length (initcalls st);
        t_before_userspace := length before;
        t_after_userspace := length after;
        t_deferred_probe_pending := length pending;
        t_failed := length failures;
        t_total_boot_ms := total `div` 1000;
        t_init_start_ms := start `div` 1000;
        t_top_initcalls :=
          (fun d => (Entity.name (Initcall.entity d), Entity.duration (Initcall.entity d)))
            <$> take 10 top_i;
        t_top_probes := (fun d => (Entity.name d, Entity.duration d)) <$> take 10 top_p;
        t_failed_list := failed_list |}.

(** The HTML branch: the two lines of the identification table that are
    computed ([Total boot time], [Init start time]). *)
Definition html_identification (st : state) : result (Z * Z) :=
  total ← boot_end st;
  start ← init_last_start_time (init st);
  Ok (total `div` 1000, start `div` 1000).

(** The abscissa of the init marker of the chart
    ([if not args.before_init: x = init.last_start_time // SCALING_US_DIV]). *)
Definition html_init_marker (before_init : bool) (st : state) : result (option Z) :=
  if before_init then Ok None
  else x ← init_last_start_time (init st); Ok (Some (x `div` 100)).

(** The [After init] column of the probes table, for the probe [d]. *)
Definition after_init (st : state) (d : Probe.t) : result bool :=
  a ← Entity.last_start_time d;
  b ← init_last_start_time (init st);
  Ok (b <? a).

Record html_report : Type := mkHtml {
  h_identification : Z * Z;
  h_slots : option (gmap string Z * list rect);
  h_init_marker : option Z;
  h_after_init : list (string * bool)
}.

(** The parts of the HTML branch that read [init] or place the probes, in
    the order of the script: the identification table, the probes of the
    chart, the init marker, the probes table.  The scale, the initcalls of
    the chart, the pie charts and the initcalls table lie between them and
    read neither. *)
Definition html (before_init : bool) (st : state) : result html_report :=
  ident ← html_identification st;
  slots ← (if (0 <? length (probes st))%nat
           then plot_probes (lanes_bound (probes st)) (probes st)
           else Ok (Some (∅, [])));
  marker ← html_init_marker before_init st;
  rows ← (if (0 <? length (probes st))%nat
          then ds ← sorted (fun k => Ok (Entity.duration k)) true (PyDict.values (probes st));
               mapM (fun d => b ← after_init st d; Ok (Entity.name d, b)) ds
          else Ok []);
  Ok {| h_identification := ident;
        h_slots := slots;
        h_init_marker := marker;
        h_after_init := rows |}.

Inductive report : Type :=
| Html (h : html_report)
| Text (t : text_report).

(** The script after argument parsing: the scan, the exit on an empty
    [initcalls], then one of the two reports. *)
Definition main (randint : nat -> Z) (html_flag before_init : bool) (feed : list event)
    : result report :=
  let st := scan randint before_init feed in
  if (length (initcalls st) =? 0)%nat then Raise (SystemExit 1)
  else if html_flag then Html <$> html before_init st
  else Text <$> text st.

(** ** The status cells of the two tables *)

(** [run_status] of the initcalls table:
    ['RUNNING' if d.running else 'FAILED' if d.failed else 'OK']. *)
Definition initcall_status (d : Entity.t) : result string :=
  r ← Entity.running d;
  if (r : bool) then Ok "RUNNING"%string
  else f ← Entity.failed d; Ok (if (f : bool) then "FAILED" else "OK")%string.

(** [run_status] of the probes table: ['DEFERRED' if
    d.deferred_probe_pending else 'RUNNING' if d.running else 'FAILED' if
    d.failed else 'OK']. *)
Definition probe_status (d : Probe.t) : result string :=
  p ← Probe.deferred_probe_pending d;
  if (p : bool) then Ok "DEFERRED"%string
  else
    r ← Entity.running d;
    if (r : bool) then Ok "RUNNING"%string
    else f ← Entity.failed d; Ok (if (f : bool) then "FAILED" else "OK")%string.

(** The code printed after a failed status:
    [f' ({abs(d.retval)})' if d.failed else '']. *)
Definition status_code (d : Entity.t) : result (option Z) :=
  f ← Entity.failed d;
  if (f : bool) then rv ← Entity.retval d; Ok (Some (Z.abs rv)) else Ok None.

(** The peak number of probes running in parallel, which sizes the chart:
    [for p in probes.values(): max_par_probes = max(max_par_probes,
    max([len(list(filter(lambda k: k.running_at(r.start_time),
    probes.values()))) for r in p.runs]))]. *)
Definition running_count (ps : PyDict.t Probe.t) (time : Z) : Z :=
  Z.of_nat (length (filter (fun k : Probe.t => Entity.running_at k time = true)
                      (PyDict.values ps))).

Fixpoint max_par_loop (ps : PyDict.t Probe.t) (acc : Z) (todo : list Probe.t) : result Z :=
  match todo with
  | [] => Ok acc
  | p :: todo' =>
      m ← py_max ((fun r => running_count ps (Run.start_time r)) <$> Entity.runs p);
      max_par_loop ps (Z.max acc m) todo'
  end.

Definition max_par_probes (ps : PyDict.t Probe.t) : result Z :=
  max_par_loop ps 0 (PyDict.values ps).

(** [SCALE_SIZE + MARGIN_SIZE + INITCALL_SIZE + MARGIN_SIZE
     + (PROBE_SIZE + MARGIN_SIZE) * max_par_probes] *)
Definition bootchart_height (max_par : Z) : Z := 25 + 5 + 100 + 5 + (50 + 5) * max_par.

(** The ordinate of a probe rectangle in lane [ypos]:
    [y_offset + (PROBE_SIZE + MARGIN_SIZE) * ypos] with
    [y_offset = SCALE_SIZE + MARGIN_SIZE + INITCALL_SIZE + MARGIN_SIZE]. *)
Definition probe_rect_y (ypos : Z) : Z := 25 + 5 + 100 + 5 + (50 + 5) * ypos.

(** The initcalls of the chart: those with a positive duration, by first
    start time; each gives the abscissa and the width of its rectangle
    ([d.first_start_time // SCALING_US_DIV],
    [max(d.duration // SCALING_US_DIV, 1)]). *)
Definition initcall_rects (st : state) : result (list (string * Z * Z)) :=
  ds ← sorted (fun k => Entity.first_start_time (Initcall.entity k)) false
         (base.filter (fun i : Initcall.t => 0 < Entity.duration (Initcall.entity i))
            (PyDict.values (initcalls st)));
  mapM (fun d : Initcall.t =>
          x ← Entity.first_start_time (Initcall.entity d);
          Ok (Entity.name (Initcall.entity d), x `div` 100,
              Z.max (Entity.duration (Initcall.entity d) `div` 100) 1))
       ds.

(** ** Vocabulary of the statements *)

Definition is_InitStarted (ev : event) : bool :=
  match ev with
  | InitStarted _ _ => true
  | _ => false
  end.

(** The feed cut immediately after its first [InitStarted]. *)
Fixpoint until_init (feed : list event) : list event :=
  match feed with
  | [] => []
  | InitStarted name time :: _ => [InitStarted name time]
  | ev :: feed' => ev :: until_init feed'
  end.

(** [ev] is a call or a return of the initcall [name]. *)
Definition concerns (name : string) (ev : event) : bool :=
  match ev with
  | CallStarted n _ _ | CallReturned n _ _ _ => String.eqb n name
  | _ => false
  end.

(** An entity, an initcall and a state with every colour tag blanked. *)
Definition uncolored (e : Entity.t) : Entity.t :=
  {| Entity.name := Entity.name e; Entity.color := (0, 0, 0); Entity.runs := Entity.runs e |}.

Definition uncolored_initcall (i : Initcall.t) : Initcall.t :=
  Initcall.with_entity i (uncolored (Initcall.entity i)).

Definition uncolored_state (st : state) : state :=
  {| initcalls := prod_map id uncolored_initcall <$> initcalls st;
     probes := prod_map id uncolored <$> probes st;
     init := uncolored <$> init st;
     version := version st;
     machine := machine st;
     cmdline := cmdline st;
     stderr := stderr st;
     drawn := drawn st |}.

(** What the scan maintains: an entity never loses its first run, and no
    run has a negative duration. *)
Definition sound_entity (e : Entity.t) : Prop :=
  Entity.runs e <> [] /\ Forall (fun r => 0 <= Run.duration r) (Entity.runs e).

Definition sound (st : state) : Prop :=
  Forall sound_entity (all_entities st) /\ from_option sound_entity True (init st).

(** The part of the feed a scan reads. *)
Definition ingested (before_init : bool) (feed : list event) : list event :=
  if before_init then until_init feed else feed.

(** The returns of the probe [name], in the order of the feed: time, return
    code, duration. *)
Definition probe_return_of (name : string) (ev : event) : option (N * Z * N) :=
  match ev with
  | ProbeReturned n t rv d => if String.eqb n name then Some (t, rv, d) else None
  | _ => None
  end.

Definition probe_returns (name : string) (feed : list event) : list (N * Z * N) :=
  omap (probe_return_of name) feed.

(** The run a return describes: it starts [duration] before the time of
    the line. *)
Definition run_of_return (x : N * Z * N) : Run.t :=
  Run.mk (Z.of_N x.1.1 - Z.of_N x.2) (Z.of_N x.1.1) (Z.of_N x.2) x.1.2 true.

(** [ev] is a call of the initcall [name]. *)
Definition calls (name : string) (ev : event) : bool :=
  match ev with
  | CallStarted n _ _ => String.eqb n name
  | _ => false
  end.

Definition is_CallStarted (ev : event) : bool :=
  match ev with
  | CallStarted _ _ _ => true
  | _ => false
  end.

(** The returns of the initcall [name] that follow a call of [name];
    [known] says whether a call was already seen. *)
Fixpoint matched_returns (name : string) (known : bool) (feed : list event) : list (N * Z * N) :=
  match feed with
  | [] => []
  | CallStarted n _ _ :: feed' => matched_returns name (known || String.eqb n name) feed'
  | CallReturned n t rv d :: feed' =>
      if known && String.eqb n name
      then (t, rv, d) :: matched_returns name known feed'
      else matched_returns name known feed'
  | _ :: feed' => matched_returns name known feed'
  end.

(** The text an event gives to each of the three strings. *)
Definition version_of (ev : event) : option string :=
  match ev with VersionSeen s => Some s | _ => None end.
Definition machine_of (ev : event) : option string :=
  match ev with MachineSeen s => Some s | _ => None end.
Definition cmdline_of (ev : event) : option string :=
  match ev with CmdlineSeen s => Some s | _ => None end.

(** What the scan maintains besides [sound]: a run whose end is unset has
    no duration yet. *)
Definition open_runs_empty (e : Entity.t) : Prop :=
  Forall (fun r => Run.end_time r < 0 -> Run.duration r = 0) (Entity.runs e).

(** What the scan maintains for the probes: every run is ended, ends at a
    time that is not negative and lasts from its start to its end. *)
Definition whole_run (r : Run.t) : Prop :=
  Run.ended r = true /\ 0 <= Run.end_time r /\ 0 <= Run.duration r
  /\ Run.end_time r = Run.start_time r + Run.duration r.

(** [e'] is [e] after more events: the same name and colour, and the start
    times of the runs of [e] followed by those of the new runs. *)
Definition entity_grows (e e' : Entity.t) : Prop :=
  Entity.name e' = Entity.name e
  /\ Entity.color e' = Entity.color e
  /\ (Run.start_time <$> Entity.runs e) `prefix_of` (Run.start_time <$> Entity.runs e').

(** [st'] is [st] after more events: the keys of both dictionaries are kept
    in their order, new ones come after them; every initcall keeps its
    module and grows; every probe keeps its name, colour and runs and gets
    new runs after them; an init marker stays as it is. *)
Definition state_grows (st st' : state) : Prop :=
  PyDict.keys (initcalls st) `prefix_of` PyDict.keys (initcalls st')
  /\ PyDict.keys (probes st) `prefix_of` PyDict.keys (probes st')
  /\ (forall (k : string) (i : Initcall.t),
        PyDict.get (initcalls st) k = Some i ->
        exists i', PyDict.get (initcalls st') k = Some i'
          /\ Initcall.module i' = Initcall.module i
          /\ entity_grows (Initcall.entity i) (Initcall.entity i'))
  /\ (forall (k : string) (p : Probe.t),
        PyDict.get (probes st) k = Some p ->
        exists p', PyDict.get (probes st') k = Some p'
          /\ Entity.name p' = Entity.name p
          /\ Entity.color p' = Entity.color p
          /\ Entity.runs p `prefix_of` Entity.runs p')
  /\ (forall i : Init.t, init st = Some i -> init st' = Some i).

(** * Properties *)

(** ** Dictionaries *)

Section PyDictFacts.

Context {V : Type}.
Implicit Types (d : PyDict.t V) (k : string) (v : V).

Lemma get_set_eq d k v : PyDict.get (PyDict.set d k v) k = Some v.
Proof.
  induction d as [|[k' v'] d IH]; simpl.
  - by rewrite String.eqb_refl.
  - destruct (String.eqb k k') eqn:E; simpl; rewrite ?E, ?String.eqb_refl; done.
Qed.

Lemma get_set_ne d k k' v : k <> k' -> PyDict.get (PyDict.set d k v) k' = PyDict.get d k'.
Proof.
  intros Hne. induction d as [|[k0 v0] d IH]; simpl.
  - by rewrite (proj2 (String.eqb_neq k' k)).
  - destruct (String.eqb k k0) eqn:E; simpl.
    + apply String.eqb_eq in E as <-.
      by rewrite (proj2 (String.eqb_neq k' k)).
    + by rewrite IH.
Qed.

Lemma get_Some_elem d k v : PyDict.get d k = Some v -> v ∈ PyDict.values d.
Proof.
  unfold PyDict.values. induction d as [|[k' v'] d IH]; simpl; [done|].
  destruct (String.eqb k k').
  - intros [= ->]. apply list_elem_of_here.
  - intros H. apply list_elem_of_further. auto.
Qed.

Lemma Forall_values_set (P : V -> Prop) d k v :
  Forall P (PyDict.values d) -> P v -> Forall P (PyDict.values (PyDict.set d k v)).
Proof.
  unfold PyDict.values. intros Hd Hv.
  induction d as [|[k' v'] d IH]; simpl.
  - by constructor.
  - apply Forall_cons in Hd as [Hv' Hd].
    destruct (String.eqb k k'); simpl; constructor; auto.
Qed.

End PyDictFacts.

(** ** Runs and entities *)

Lemma last_run_snoc (e : Entity.t) (rs : list Run.t) (r : Run.t) :
  Entity.runs e = rs ++ [r] -> Entity.last_run e = Ok r.
Proof. intros H. unfold Entity.last_run. by rewrite H, last_snoc. Qed.

Lemma last_run_sound (e : Entity.t) :
  Entity.runs e <> [] -> exists rs r, Entity.runs e = rs ++ [r] /\ Entity.last_run e = Ok r.
Proof.
  intros H. apply last_is_Some in H as [r Hr].
  pose proof Hr as Hl. apply last_Some in Hl as [rs Hrs].
  exists rs, r. split; [done|]. eauto using last_run_snoc.
Qed.

Lemma insert_last (rs : list Run.t) (r r' : Run.t) :
  <[pred (length (rs ++ [r])) := r']> (rs ++ [r]) = rs ++ [r'].
Proof.
  rewrite length_app. simpl.
  replace (pred (length rs + 1)) with (length rs + 0)%nat by lia.
  by rewrite insert_app_r.
Qed.

(** C5: [addEnd] on an entity whose latest run is open (its end is unset,
    which the code reads as a negative end time) closes that run in place
    with the given end time, duration and return code, and the number of
    runs does not change; on an entity whose latest run is closed it
    appends one run that starts at the sentinel -1, carries the given
    fields and is closed as soon as the time stamp is not negative, and the
    number of runs grows by one. *)
Theorem addEnd_closes_or_appends (e : Entity.t) (rs : list Run.t) (r : Run.t) (t d rv : Z) :
  Entity.runs e = rs ++ [r] ->
  (Run.end_time r < 0 ->
     exists e', Entity.addEnd e t d rv = Ok e'
       /\ Entity.runs e' = rs ++ [Run.mk (Run.start_time r) t d rv true]
       /\ length (Entity.runs e') = length (Entity.runs e)
       /\ Entity.name e' = Entity.name e /\ Entity.color e' = Entity.color e)
  /\ (0 <= Run.end_time r ->
     exists e', Entity.addEnd e t d rv = Ok e'
       /\ Entity.runs e' = Entity.runs e ++ [Run.mk (-1) t d rv (0 <=? t)]
       /\ length (Entity.runs e') = S (length (Entity.runs e))
       /\ (0 <= t -> Run.ended (Run.mk (-1) t d rv (0 <=? t)) = true)
       /\ Entity.name e' = Entity.name e /\ Entity.color e' = Entity.color e).
Proof.
  intros Hruns. unfold Entity.addEnd. rewrite (last_run_snoc e rs r Hruns). simpl.
  split; intros Hend.
  - rewrite (proj2 (Z.leb_gt 0 (Run.end_time r))) by done.
    eexists. split; [reflexivity|]. simpl.
    rewrite Hruns, insert_last. repeat split.
    by rewrite !length_app.
  - rewrite (proj2 (Z.leb_le 0 (Run.end_time r))) by done.
    eexists. split; [reflexivity|]. simpl. repeat split.
    + rewrite length_app. simpl. lia.
    + intros Ht. by apply Z.leb_le.
Qed.

Lemma addEnd_closes_or_appends_witness :
  Entity.addEnd (Entity.addStart (Entity.init "x" (1, 2, 3) 0 1 1 0) 5) 9 4 0
    = Ok (Entity.mk "x" (1, 2, 3) [Run.mk 0 1 1 0 true; Run.mk 5 9 4 0 true])
  /\ Entity.addEnd (Entity.init "x" (1, 2, 3) 0 1 1 0) 9 4 0
    = Ok (Entity.mk "x" (1, 2, 3) [Run.mk 0 1 1 0 true; Run.mk (-1) 9 4 0 true]).
Proof.
  split.
  - destruct (addEnd_closes_or_appends
                (Entity.addStart (Entity.init "x" (1, 2, 3) 0 1 1 0) 5)
                [Run.mk 0 1 1 0 true] (Run.started 5) 9 4 0 eq_refl) as [Hopen _].
    destruct Hopen as (e' & -> & Hruns & _ & Hname & Hcolor); [simpl; lia|].
    destruct e'. simpl in *. by subst.
  - destruct (addEnd_closes_or_appends
                (Entity.init "x" (1, 2, 3) 0 1 1 0)
                [] (Run.mk 0 1 1 0 true) 9 4 0 eq_refl) as [_ Hclosed].
    destruct Hclosed as (e' & -> & Hruns & _ & _ & Hname & Hcolor); [simpl; lia|].
    destruct e'. simpl in *. by subst.
Defined.

(** ** The deferred-probe code *)

Lemma deferred_iff (r : Run.t) :
  Run.deferred r = true <-> Run.retval r = 517 \/ Run.retval r = -517.
Proof. unfold Run.deferred, ERRCODE_PROBE_DEFER. rewrite Z.eqb_eq. lia. Qed.

Lemma num_deferred_snoc (name : string) (c : Z * Z * Z) (rs : list Run.t) (r : Run.t) :
  Probe.num_deferred_probes (Entity.mk name c (rs ++ [r]))
  = (Probe.num_deferred_probes (Entity.mk name c rs)
     + if Run.deferred r then 1 else 0)%nat.
Proof.
  unfold Probe.num_deferred_probes. simpl.
  rewrite filter_app, length_app. f_equal.
  rewrite filter_cons. destruct (Run.deferred r); case_decide; done.
Qed.

(** C8: the deferred code is recognised whatever its sign.  For a return
    code [rv] that is 517 or -517: every run that holds [rv] is running;
    a probe whose latest run holds [rv] has a deferred probe pending and
    that run adds one to its number of deferred probes; and a
    [ProbeReturned] event with [rv] leaves the probe of that name pending
    and running, with one deferral for a new probe and one more than
    before for a known one. *)
Theorem deferred_code_either_sign (rv : Z) :
  rv = 517 \/ rv = -517 ->
  (forall r : Run.t, Run.retval r = rv -> Run.running r = true)
  /\ (forall (p : Probe.t) (rs : list Run.t) (r : Run.t),
        Entity.runs p = rs ++ [r] -> Run.retval r = rv ->
        Probe.deferred_probe_pending p = Ok true
        /\ Probe.num_deferred_probes p
           = S (Probe.num_deferred_probes (Entity.with_runs p rs)))
  /\ (forall (randint : nat -> Z) (b : bool) (st : state) (name : string) (t d : N),
        let st' := (step randint b st (ProbeReturned name t rv d)).1 in
        exists p, PyDict.get (probes st') name = Some p
          /\ Probe.deferred_probe_pending p = Ok true
          /\ Entity.running p = Ok true
          /\ Probe.num_deferred_probes p
             = S (from_option Probe.num_deferred_probes 0%nat (PyDict.get (probes st) name))).
Proof.
  intros Hrv.
  assert (Hdef : forall r, Run.retval r = rv -> Run.deferred r = true).
  { intros r Hr. apply deferred_iff. by rewrite Hr. }
  split; [|split].
  - intros r Hr. unfold Run.running. rewrite (Hdef r Hr). apply orb_true_r.
  - intros [name c runs] rs r Hruns Hr. simpl in Hruns. subst runs. split.
    + unfold Probe.deferred_probe_pending.
      rewrite (last_run_snoc (Entity.mk name c (rs ++ [r])) rs r eq_refl).
      simpl. by rewrite (Hdef r Hr).
    + rewrite num_deferred_snoc, (Hdef r Hr). unfold Entity.with_runs. simpl. lia.
  - intros randint b st name t d. simpl.
    assert (Hinit : forall s e d', Run.deferred (Run.init s e d' rv) = true)
      by (intros; by apply Hdef).
    destruct (PyDict.get (probes st) name) as [p|] eqn:Hget; simpl.
    + eexists. split; [apply get_set_eq|].
      destruct p as [pname c runs].
      unfold Probe.deferred_probe_pending, Entity.running, Entity.addRun.
      unfold Entity.with_runs. simpl.
      rewrite (last_run_snoc (Entity.mk pname c (runs ++ [_])) runs _ eq_refl). simpl.
      unfold Entity.with_runs. simpl. rewrite num_deferred_snoc.
      unfold Run.running. rewrite Hinit. simpl.
      rewrite orb_true_r. repeat split. lia.
    + eexists. split; [apply get_set_eq|].
      unfold Probe.deferred_probe_pending, Entity.running, Probe.init, Entity.init.
      rewrite (last_run_snoc (Entity.mk name _ [_]) [] _ eq_refl). simpl.
      unfold Run.running. rewrite Hinit. simpl.
      rewrite orb_true_r. repeat split.
      unfold Probe.num_deferred_probes. simpl.
      rewrite filter_cons_True; [done|]. apply Hinit.
Qed.

Lemma deferred_code_either_sign_witness :
  Run.running (Run.init 150 200 50 (-517)) = true
  /\ Run.running (Run.init 150 200 50 517) = true
  /\ (Probe.deferred_probe_pending (Probe.init "bar" (0, 0, 0) 150 50 517) = Ok true
      /\ Probe.num_deferred_probes (Probe.init "bar" (0, 0, 0) 150 50 517) = 1%nat)
  /\ exists p, PyDict.get (probes (scan (fun _ => 0) false [ProbeReturned "bar" 200 (-517) 50])) "bar"
               = Some p
       /\ Probe.deferred_probe_pending p = Ok true
       /\ Entity.running p = Ok true
       /\ Probe.num_deferred_probes p = 1%nat.
Proof.
  split; [|split; [|split]].
  - apply (proj1 (deferred_code_either_sign (-517) (or_intror eq_refl))). reflexivity.
  - apply (proj1 (deferred_code_either_sign 517 (or_introl eq_refl))). reflexivity.
  - exact (proj1 (proj2 (deferred_code_either_sign 517 (or_introl eq_refl)))
             (Probe.init "bar" (0, 0, 0) 150 50 517) [] (Run.init 150 200 50 517)
             eq_refl eq_refl).
  - exact (proj2 (proj2 (deferred_code_either_sign (-517) (or_intror eq_refl)))
             (fun _ => 0) false initial "bar" 200%N 50%N).
Defined.

(** ** One iteration of the loop *)

Section StepFacts.

Variable randint : nat -> Z.

Lemma step_mode (b b' : bool) (st : state) (ev : event) :
  is_InitStarted ev = false -> step randint b st ev = step randint b' st ev.
Proof. by destruct ev. Qed.

Lemma step_continue (b : bool) (st : state) (ev : event) :
  b = false \/ is_InitStarted ev = false -> (step randint b st ev).2 = Continue.
Proof.
  intros H. destruct ev; simpl; repeat case_match; try done.
  by destruct H.
Qed.

Lemma step_init_kept (b : bool) (st : state) (ev : event) :
  is_InitStarted ev = false -> init (step randint b st ev).1 = init st.
Proof. intros H. destruct ev; simpl; repeat case_match; done. Qed.

Lemma step_initcall_kept (b : bool) (st : state) (ev : event) (name : string) :
  concerns name ev = false ->
  PyDict.get (initcalls (step randint b st ev).1) name = PyDict.get (initcalls st) name.
Proof.
  intros H. destruct ev; simpl in *; repeat case_match; simpl; try done;
    apply String.eqb_neq in H; by rewrite get_set_ne.
Qed.

Lemma ingest_cons_continue (b : bool) (st : state) (ev : event) (feed : list event) :
  b = false \/ is_InitStarted ev = false ->
  ingest randint b st (ev :: feed) = ingest randint b (step randint b st ev).1 feed.
Proof.
  intros H. apply (step_continue b st ev) in H. simpl.
  destruct (step randint b st ev) as [st' ctl]. simpl in *. by subst.
Qed.

Lemma ingest_app (b : bool) (st : state) (evs rest : list event) :
  (b = true -> Forall (fun ev => is_InitStarted ev = false) evs) ->
  ingest randint b st (evs ++ rest) = ingest randint b (ingest randint b st evs) rest.
Proof.
  intros H. revert st. induction evs as [|ev evs IH]; intros st; [done|].
  assert (Hev : b = false \/ is_InitStarted ev = false).
  { destruct b; [right|by left]. specialize (H eq_refl). by inversion H. }
  rewrite <- app_comm_cons, !ingest_cons_continue by done.
  apply IH. intros Hb. specialize (H Hb). by inversion H.
Qed.

Lemma ingest_initcall_kept (b : bool) (st : state) (evs : list event) (name : string) :
  Forall (fun ev => concerns name ev = false) evs ->
  PyDict.get (initcalls (ingest randint b st evs)) name = PyDict.get (initcalls st) name.
Proof.
  intros H. revert st. induction H as [|ev evs Hev _ IH]; intros st; [done|].
  simpl. destruct (step randint b st ev) as [st' ctl] eqn:Hstep.
  pose proof (step_initcall_kept b st ev name Hev) as Hkept.
  rewrite Hstep in Hkept. simpl in Hkept.
  destruct ctl; [by rewrite IH|done].
Qed.

(** C10: a [CallReturned] whose name is not a key of [initcalls] prints
    the diagnostic to the error stream and changes nothing else: the
    dictionary of initcalls is the same (the name is still absent), and so
    are the probes, the init marker and the three strings; the loop goes on
    with the next line. *)
Theorem unmatched_return_dropped (b : bool) (st : state) (name : string) (t : N) (rv : Z) (d : N) :
  PyDict.get (initcalls st) name = None ->
  let st' := (step randint b st (CallReturned name t rv d)).1 in
  (step randint b st (CallReturned name t rv d)).2 = Continue
  /\ stderr st' = stderr st ++ [never_recorded name]
  /\ initcalls st' = initcalls st
  /\ PyDict.get (initcalls st') name = None
  /\ probes st' = probes st /\ init st' = init st
  /\ (version st', machine st', cmdline st') = (version st, machine st, cmdline st)
  /\ forall rest : list event,
       ingest randint b st (CallReturned name t rv d :: rest) = ingest randint b st' rest.
Proof.
  intros Hget. simpl. rewrite Hget. simpl. done.
Qed.

End StepFacts.

Lemma unmatched_return_dropped_witness :
  let st := scan (fun _ => 0) false [CallReturned "baz" 10 0 1] in
  stderr st = ["Detected return for initcall baz, for which a call was never recorded"%string]
  /\ initcalls st = [] /\ PyDict.get (initcalls st) "baz" = None.
Proof.
  destruct (unmatched_return_dropped (fun _ => 0) false initial "baz" 10%N 0 1%N eq_refl)
    as (_ & Herr & Hsame & Hget & _).
  intros st. split; [exact Herr | split; [exact Hsame | exact Hget]].
Defined.

(** ** The first run of an initcall *)

(** C1: on the feed [CallStarted foo 100], [CallReturned foo 105 0 5] the
    initcall foo ends with two runs, not one: the run made with the entity
    (start 100, end 0, duration 0, already ended) and the run appended by
    [addEnd] (start -1, end 105, duration 5).  The total duration is 5 and
    the entity is neither failed nor running. *)
Theorem scenario_A_two_runs (randint : nat -> Z) (b : bool) :
  let st := scan randint b [CallStarted "foo" 100 ""; CallReturned "foo" 105 0 5] in
  exists i : Initcall.t,
    PyDict.get (initcalls st) "foo" = Some i
    /\ Entity.runs (Initcall.entity i) = [Run.mk 100 0 0 0 true; Run.mk (-1) 105 5 0 true]
    /\ length (filter (fun r => Run.ended r = true) (Entity.runs (Initcall.entity i))) = 2%nat
    /\ Entity.duration (Initcall.entity i) = 5
    /\ Entity.failed (Initcall.entity i) = Ok false
    /\ Entity.running (Initcall.entity i) = Ok false.
Proof. simpl. eexists. split; [reflexivity|]. by repeat split. Qed.

(** C2: an initcall created by [CallStarted] gets one run whose end time is
    0, not the sentinel -1, so the run counts as ended from the start.  As
    long as no call or return of that name is ingested the entity stays
    so: it is not running and its last end time is 0.  The first
    [CallReturned] of that name then appends a second run that starts at -1
    and leaves the first run as it was. *)
Theorem initcall_born_ended (randint : nat -> Z) (b : bool) (st : state) (name : string)
    (t : N) (m : string) (evs : list event) (t' : N) (rv : Z) (d : N) :
  PyDict.get (initcalls st) name = None ->
  Forall (fun ev => concerns name ev = false) evs ->
  (b = true -> Forall (fun ev => is_InitStarted ev = false) evs) ->
  let st1 := (step randint b st (CallStarted name t m)).1 in
  let first := Run.mk (Z.of_N t) 0 0 0 true in
  exists i i' : Initcall.t,
    PyDict.get (initcalls st1) name = Some i
    /\ Entity.runs (Initcall.entity i) = [first]
    /\ Entity.running (Initcall.entity i) = Ok false
    /\ Entity.last_end_time (Initcall.entity i) = Ok 0
    /\ PyDict.get (initcalls (ingest randint b st1 evs)) name = Some i
    /\ PyDict.get (initcalls (ingest randint b st1 (evs ++ [CallReturned name t' rv d]))) name
       = Some i'
    /\ Entity.runs (Initcall.entity i')
       = [first; Run.mk (-1) (Z.of_N t') (Z.of_N d) rv true].
Proof.
  intros Hget Hquiet Hmode. simpl. rewrite Hget. simpl.
  set (st1 := set_initcalls _ _).
  set (i := Initcall.init name _ (Z.of_N t) m).
  assert (H1 : PyDict.get (initcalls st1) name = Some i) by apply get_set_eq.
  assert (H2 : PyDict.get (initcalls (ingest randint b st1 evs)) name = Some i)
    by (by rewrite ingest_initcall_kept).
  exists i. eexists. repeat split; try done.
  - rewrite ingest_app by done. simpl. rewrite H2. simpl. apply get_set_eq.
  - simpl. do 2 f_equal. unfold Run.init. f_equal. apply Z.leb_le. lia.
Qed.

Lemma initcall_born_ended_witness :
  exists i i' : Initcall.t,
    PyDict.get (initcalls (scan (fun _ => 0) true [CallStarted "foo" 100 ""])) "foo" = Some i
    /\ Entity.runs (Initcall.entity i) = [Run.mk 100 0 0 0 true]
    /\ Entity.running (Initcall.entity i) = Ok false
    /\ Entity.last_end_time (Initcall.entity i) = Ok 0
    /\ PyDict.get (initcalls (scan (fun _ => 0) true
                       [CallStarted "foo" 100 ""; VersionSeen "6.12.0";
                        ProbeReturned "bar" 104 0 2])) "foo" = Some i
    /\ PyDict.get (initcalls (scan (fun _ => 0) true
                       [CallStarted "foo" 100 ""; VersionSeen "6.12.0";
                        ProbeReturned "bar" 104 0 2; CallReturned "foo" 105 0 5])) "foo"
       = Some i'
    /\ Entity.runs (Initcall.entity i') = [Run.mk 100 0 0 0 true; Run.mk (-1) 105 5 0 true].
Proof.
  apply (initcall_born_ended (fun _ => 0) true initial "foo" 100%N ""
           [VersionSeen "6.12.0"; ProbeReturned "bar" 104 0 2] 105%N 0 5%N).
  - reflexivity.
  - repeat constructor.
  - intros _. repeat constructor.
Defined.

(** ** Stopping at the init marker *)

Lemma ingest_until_init (randint : nat -> Z) (feed : list event) (st : state) :
  init st = None ->
  ingest randint true st feed = ingest randint true st (until_init feed)
  /\ ingest randint true st (until_init feed) = ingest randint false st (until_init feed).
Proof.
  revert st. induction feed as [|ev feed IH]; intros st Hinit; [done|].
  destruct (is_InitStarted ev) eqn:Hev.
  - destruct ev; try done. simpl. by rewrite Hinit.
  - assert (Hcut : until_init (ev :: feed) = ev :: until_init feed) by (by destruct ev).
    rewrite Hcut, !ingest_cons_continue by auto.
    rewrite (step_mode randint true false) by done.
    apply IH. by rewrite step_init_kept.
Qed.

Lemma first_init_split (feed : list event) :
  existsb is_InitStarted feed = true ->
  exists pre name time post,
    feed = pre ++ InitStarted name time :: post
    /\ Forall (fun ev => is_InitStarted ev = false) pre
    /\ until_init feed = pre ++ [InitStarted name time].
Proof.
  induction feed as [|ev feed IH]; [done|].
  destruct (is_InitStarted ev) eqn:Hev.
  - intros _. destruct ev; try done. by exists [], name, time, feed.
  - simpl. rewrite Hev. simpl. intros H.
    destruct (IH H) as (pre & name & time & post & -> & Hpre & Hcut).
    exists (ev :: pre), name, time, post. repeat split.
    + by constructor.
    + destruct ev; simpl; by rewrite ?Hcut.
Qed.

Lemma ingest_init_kept (randint : nat -> Z) (b : bool) (st : state) (evs : list event) :
  Forall (fun ev => is_InitStarted ev = false) evs ->
  init (ingest randint b st evs) = init st.
Proof.
  intros H. revert st. induction H as [|ev evs Hev _ IH]; intros st; [done|].
  rewrite ingest_cons_continue by auto. by rewrite IH, step_init_kept.
Qed.

(** C6: in before-init mode the scan of a feed that holds an [InitStarted]
    ends in the state of the scan of the feed cut right after the first
    [InitStarted], in whichever mode the cut feed is scanned.  That event
    is ingested: it sets the init marker, with its name and time.  What
    follows it has no effect: two feeds with the same cut end in the same
    state. *)
Theorem before_init_truncates (randint : nat -> Z) (feed : list event) :
  existsb is_InitStarted feed = true ->
  scan randint true feed = scan randint true (until_init feed)
  /\ scan randint true feed = scan randint false (until_init feed)
  /\ (exists pre name time post,
        feed = pre ++ InitStarted name time :: post
        /\ Forall (fun ev => is_InitStarted ev = false) pre
        /\ until_init feed = pre ++ [InitStarted name time]
        /\ init (scan randint true feed)
           = Some (Init.init name (fresh_color randint (scan randint true pre)).1
                     (Z.of_N time)))
  /\ (forall feed' : list event,
        until_init feed' = until_init feed ->
        scan randint true feed' = scan randint true feed).
Proof.
  intros Hex. unfold scan.
  destruct (ingest_until_init randint feed initial eq_refl) as [Hcut Hmode].
  split; [done|]. split; [congruence|]. split.
  - destruct (first_init_split feed Hex) as (pre & name & time & post & Hfeed & Hpre & Hpre').
    exists pre, name, time, post. repeat split; try done.
    rewrite Hcut, Hpre', ingest_app by done. simpl.
    by rewrite (ingest_init_kept randint true initial pre Hpre).
  - intros feed' Hsame.
    destruct (ingest_until_init randint feed' initial eq_refl) as [Hcut' _].
    by rewrite Hcut', Hsame.
Qed.

Lemma before_init_truncates_witness :
  scan (fun _ => 0) true
    [CallStarted "foo" 100 ""; InitStarted "/sbin/init" 200; CallReturned "foo" 300 0 5]
  = scan (fun _ => 0) false [CallStarted "foo" 100 ""; InitStarted "/sbin/init" 200].
Proof.
  exact (proj1 (proj2 (before_init_truncates (fun _ => 0)
           [CallStarted "foo" 100 ""; InitStarted "/sbin/init" 200; CallReturned "foo" 300 0 5]
           eq_refl))).
Defined.

(** ** What the scan maintains *)

Lemma sound_split (st : state) :
  sound st <->
  Forall (fun i => sound_entity (Initcall.entity i)) (PyDict.values (initcalls st))
  /\ Forall sound_entity (PyDict.values (probes st))
  /\ from_option sound_entity True (init st).
Proof.
  unfold sound, all_entities. rewrite Forall_app, Forall_fmap. unfold compose. tauto.
Qed.

Lemma sound_init (name : string) (c : Z * Z * Z) (s e d rv : Z) :
  0 <= d -> sound_entity (Entity.init name c s e d rv).
Proof. intros Hd. split; [done|]. by repeat constructor. Qed.

Lemma sound_snoc (e : Entity.t) (r : Run.t) :
  sound_entity e -> 0 <= Run.duration r -> sound_entity (Entity.with_runs e (Entity.runs e ++ [r])).
Proof.
  intros [Hne Hall] Hr. split; simpl.
  - by destruct (Entity.runs e).
  - apply Forall_app. split; [done|]. by repeat constructor.
Qed.

Lemma sound_addEnd (e e' : Entity.t) (t d rv : Z) :
  sound_entity e -> 0 <= d -> Entity.addEnd e t d rv = Ok e' -> sound_entity e'.
Proof.
  intros He Hd. destruct (last_run_sound e (proj1 He)) as (rs & r & Hruns & Hlast).
  unfold Entity.addEnd. rewrite Hlast. simpl.
  destruct (0 <=? Run.end_time r); intros [= <-].
  - by apply sound_snoc.
  - destruct He as [_ Hall]. rewrite Hruns in *. split; simpl; rewrite insert_last.
    + by destruct rs.
    + apply Forall_app in Hall as [Hrs _]. apply Forall_app. split; [done|].
      by repeat constructor.
Qed.

Lemma get_sound {V : Type} (P : V -> Prop) (d : PyDict.t V) (k : string) (v : V) :
  Forall P (PyDict.values d) -> PyDict.get d k = Some v -> P v.
Proof.
  intros Hall Hget. rewrite Forall_forall in Hall. apply Hall.
  eauto using get_Some_elem.
Qed.

Lemma step_sound (randint : nat -> Z) (b : bool) (st : state) (ev : event) :
  sound st -> sound (step randint b st ev).1.
Proof.
  rewrite !sound_split. intros (Hi & Hp & Hinit).
  destruct ev as [text|text|text|name time module|name time rv d|name time rv d|name time];
    simpl; try done.
  - destruct (PyDict.get (initcalls st) name) as [i|] eqn:Hget; simpl.
    + repeat split; try done. apply Forall_values_set; [done|].
      apply sound_snoc; [|done].
      by apply (get_sound (fun i => sound_entity (Initcall.entity i)) _ _ _ Hi Hget).
    + repeat split; try done. apply Forall_values_set; [done|]. by apply sound_init.
  - destruct (PyDict.get (initcalls st) name) as [i|] eqn:Hget; simpl; [|done].
    pose proof (get_sound (fun i => sound_entity (Initcall.entity i)) _ _ _ Hi Hget) as Hs.
    unfold Initcall.addEnd.
    destruct (Entity.addEnd (Initcall.entity i) (Z.of_N time) (Z.of_N d) rv) as [e'|x] eqn:Hend;
      simpl; [|done].
    repeat split; try done. apply Forall_values_set; [done|]. simpl.
    eapply sound_addEnd; [exact Hs| |exact Hend]. lia.
  - destruct (PyDict.get (probes st) name) as [p|] eqn:Hget; simpl.
    + repeat split; try done. apply Forall_values_set; [done|].
      apply sound_snoc; [|simpl; lia]. by apply (get_sound sound_entity _ _ _ Hp Hget).
    + repeat split; try done. apply Forall_values_set; [done|]. apply sound_init. lia.
  - destruct (init st) eqn:Hi0; simpl; [by rewrite Hi0|].
    split; [done|]. split; [done|]. by apply sound_init.
Qed.

Lemma ingest_sound (randint : nat -> Z) (b : bool) (feed : list event) (st : state) :
  sound st -> sound (ingest randint b st feed).
Proof.
  revert st. induction feed as [|ev feed IH]; intros st Hst; [done|].
  simpl. pose proof (step_sound randint b st ev Hst) as Hstep.
  destruct (step randint b st ev) as [st' []]; auto.
Qed.

Lemma scan_sound (randint : nat -> Z) (b : bool) (feed : list event) :
  sound (scan randint b feed).
Proof. apply ingest_sound. split; [constructor|done]. Qed.

(** ** Wasted time *)

Lemma wasted_le_duration (e : Entity.t) :
  Forall (fun r => 0 <= Run.duration r) (Entity.runs e) ->
  Entity.wasted_time e <= Entity.duration e.
Proof.
  unfold Entity.wasted_time, Entity.duration.
  induction 1 as [|r rs Hr _ IH]; [done|].
  rewrite filter_cons. unfold sum in *.
  case_decide; rewrite ?fmap_cons; cbn [foldr]; lia.
Qed.

(** C7: after the scan of any feed, in either mode, the wasted time of
    every entity (the durations of its failed and deferred runs) is at most
    its duration (the durations of all its runs).  This holds for the
    initcalls, for the probes and for the init marker. *)
Theorem wasted_at_most_duration (randint : nat -> Z) (b : bool) (feed : list event) :
  Forall (fun e => Entity.wasted_time e <= Entity.duration e)
         (all_entities (scan randint b feed))
  /\ from_option (fun e => Entity.wasted_time e <= Entity.duration e) True
       (init (scan randint b feed)).
Proof.
  destruct (scan_sound randint b feed) as [Hall Hinit]. split.
  - eapply Forall_impl; [exact Hall|]. intros e [_ He]. by apply wasted_le_duration.
  - destruct (init (scan randint b feed)); [|done]. simpl in *.
    apply wasted_le_duration, Hinit.
Qed.

(** ** The reports without an init marker *)

Lemma mapM_Ok {A B : Type} (f : A -> result B) (l : list A) :
  Forall (fun x => exists y, f x = Ok y) l ->
  exists k, mapM f l = Ok k /\ length k = length l.
Proof.
  induction 1 as [|x l [y Hy] _ (k & Hk & Hlen)]; [by exists []|].
  exists (y :: k). simpl. rewrite Hy. simpl. rewrite Hk. simpl. by rewrite Hlen.
Qed.

Lemma last_end_time_Ok (e : Entity.t) :
  sound_entity e -> exists t, Entity.last_end_time e = Ok t.
Proof.
  intros [Hne _]. destruct (last_run_sound e Hne) as (rs & r & _ & Hlast).
  unfold Entity.last_end_time. rewrite Hlast. by eexists.
Qed.

Lemma last_start_time_Ok (e : Entity.t) :
  sound_entity e -> exists t, Entity.last_start_time e = Ok t.
Proof.
  intros [Hne _]. destruct (last_run_sound e Hne) as (rs & r & _ & Hlast).
  unfold Entity.last_start_time. rewrite Hlast. by eexists.
Qed.

Lemma boot_end_Ok (st : state) :
  sound st -> initcalls st <> [] -> exists t, boot_end st = Ok t.
Proof.
  rewrite sound_split. intros (Hi & Hp & _) Hne. unfold boot_end.
  destruct (mapM_Ok (fun k => Entity.last_end_time (Initcall.entity k))
              (PyDict.values (initcalls st))) as (a & -> & Ha).
  { eapply Forall_impl; [exact Hi|]. intros i. apply last_end_time_Ok. }
  destruct (mapM_Ok Entity.last_end_time (PyDict.values (probes st))) as (c & -> & _).
  { eapply Forall_impl; [exact Hp|]. intros p. apply last_end_time_Ok. }
  simpl. unfold PyDict.values in Ha. rewrite length_fmap in Ha.
  destruct a as [|x a]; simpl in *; [|by eexists].
  by destruct (initcalls st).
Qed.

Lemma text_without_init (st : state) :
  sound st -> init st = None -> initcalls st <> [] -> text st = Raise AttributeError.
Proof.
  rewrite sound_split. intros (Hi & _ & _) Hinit Hne. unfold text.
  destruct (initcalls st) as [|[k i] d]; [done|].
  unfold PyDict.values in *. simpl in *. apply Forall_cons in Hi as [Hs _].
  destruct (last_start_time_Ok _ Hs) as [t ->]. by rewrite Hinit.
Qed.

Lemma html_without_init (b : bool) (st : state) :
  sound st -> init st = None -> initcalls st <> [] -> html b st = Raise AttributeError.
Proof.
  intros Hs Hinit Hne. unfold html, html_identification.
  destruct (boot_end_Ok st Hs Hne) as [t ->]. by rewrite Hinit.
Qed.

Lemma main_without_init (randint : nat -> Z) (html_flag b : bool) (feed : list event) :
  Forall (fun ev => is_InitStarted ev = false) feed ->
  main randint html_flag b feed
  = if (length (initcalls (scan randint b feed)) =? 0)%nat
    then Raise (SystemExit 1) else Raise AttributeError.
Proof.
  intros Hfeed. unfold main.
  pose proof (scan_sound randint b feed) as Hs.
  pose proof (ingest_init_kept randint b initial feed Hfeed) as Hinit.
  fold (scan randint b feed) in Hinit. simpl in Hinit.
  destruct (length (initcalls (scan randint b feed)) =? 0)%nat eqn:Hlen; [done|].
  assert (Hne : initcalls (scan randint b feed) <> []).
  { intros Heq. by rewrite Heq in Hlen. }
  destruct html_flag.
  - by rewrite html_without_init.
  - by rewrite text_without_init.
Qed.

(** C4: on a log with an initcall and a probe but no init line, both
    reports stop on an [AttributeError]; nothing is skipped.  With [init]
    still [None] the plain-text branch raises in the count of the initcalls
    started before user space, the HTML branch raises in the init start
    line of the identification table, and the init marker of the chart
    (outside before-init mode) and the after-init column of the probes
    would raise as well. *)
Theorem missing_init_raises (randint : nat -> Z) (html_flag b : bool) :
  let feed := [CallStarted "foo" 100 ""; CallReturned "foo" 105 0 5;
               ProbeReturned "bar" 200 0 50] in
  let st := scan randint b feed in
  init st = None
  /\ length (initcalls st) = 1%nat
  /\ main randint html_flag b feed = Raise AttributeError
  /\ text st = Raise AttributeError
  /\ html_identification st = Raise AttributeError
  /\ html_init_marker false st = Raise AttributeError
  /\ Forall (fun p => after_init st p = Raise AttributeError) (PyDict.values (probes st)).
Proof.
  simpl. repeat split.
  - by destruct html_flag.
  - by repeat constructor.
Qed.

(** ** The lanes of the probes *)

Section SlotFacts.

Variable ps : PyDict.t Probe.t.

Lemma taken_lane (slots : gmap string Z) (time ypos : Z) :
  taken ps slots time ypos = true ->
  ypos ∈ (fun j => default (-1) (slots !! Entity.name j)) <$> PyDict.values ps.
Proof.
  unfold taken. intros H.
  destruct (filter _ (PyDict.values ps)) as [|j js] eqn:Hf; [done|].
  assert (Hj : j ∈ filter
            (fun j : Probe.t =>
               Entity.running_at j time && (default (-1) (slots !! Entity.name j) =? ypos) = true)
            (PyDict.values ps)) by (rewrite Hf; apply list_elem_of_here).
  apply list_elem_of_filter in Hj as [Hj Hin].
  apply andb_true_iff in Hj as [_ Hj]. apply Z.eqb_eq in Hj.
  apply list_elem_of_fmap. by exists j.
Qed.

Lemma lanes_above_le (l : list Z) (y : Z) :
  (length (filter (fun v : Z => (y + 1 <= v)%Z) l) <= length (filter (fun v : Z => (y <= v)%Z) l))%nat.
Proof.
  induction l as [|v l IH]; [done|].
  rewrite !filter_cons. repeat case_decide; simpl; lia.
Qed.

Lemma lanes_above_lt (l : list Z) (y : Z) :
  y ∈ l ->
  (length (filter (fun v : Z => (y + 1 <= v)%Z) l) < length (filter (fun v : Z => (y <= v)%Z) l))%nat.
Proof.
  induction 1 as [y l|y v l _ IH].
  - pose proof (lanes_above_le l y).
    rewrite !filter_cons. repeat case_decide; simpl; lia.
  - rewrite !filter_cons. repeat case_decide; simpl; lia.
Qed.

Lemma free_lane_enough (slots : gmap string Z) (time : Z) (fuel : nat) (ypos : Z) :
  (length (filter (fun v : Z => (ypos <= v)%Z)
             ((fun j => default (-1)%Z (slots !! Entity.name j)) <$> PyDict.values ps)) < fuel)%nat ->
  is_Some (free_lane ps fuel slots time ypos).
Proof.
  revert ypos. induction fuel as [|fuel IH]; intros ypos Hlt; [lia|].
  simpl. destruct (taken ps slots time ypos) eqn:Htaken; [|done].
  apply IH. apply taken_lane in Htaken. apply lanes_above_lt in Htaken. lia.
Qed.

(** The [while] of the lane search always ends within the bound. *)
Lemma free_lane_total (slots : gmap string Z) (time : Z) :
  is_Some (free_lane ps (lanes_bound ps) slots time 0).
Proof.
  apply free_lane_enough. unfold lanes_bound, PyDict.values.
  eapply Nat.le_lt_trans; [apply length_filter|]. rewrite !length_fmap. lia.
Qed.

Lemma place_runs_total (d : Probe.t) (rs : list Run.t) (acc : gmap string Z * list rect) :
  is_Some (place_runs ps (lanes_bound ps) d acc rs).
Proof.
  revert acc. induction rs as [|r rs IH]; intros acc; [done|].
  simpl. unfold place_run.
  destruct (free_lane_total acc.1 (Run.start_time r)) as [y ->]. simpl. apply IH.
Qed.

Lemma place_probes_total (ds : list Probe.t) (acc : gmap string Z * list rect) :
  is_Some (place_probes ps (lanes_bound ps) acc ds).
Proof.
  revert acc. induction ds as [|d ds IH]; intros acc; [done|].
  simpl. destruct (place_runs_total d (Entity.runs d) acc) as [acc' ->]. simpl. apply IH.
Qed.

(** The chart of the probes is always produced: no run of the model is
    cut by the bound, and no exception is raised when every probe has a
    run. *)
Lemma plot_probes_total :
  Forall sound_entity (PyDict.values ps) ->
  exists out, plot_probes (lanes_bound ps) ps = Ok (Some out).
Proof.
  intros Hs. unfold plot_probes, sorted.
  destruct (mapM_Ok (fun x => k ← Entity.first_start_time x; Ok (k, x)) (PyDict.values ps))
    as (ks & -> & _).
  { eapply Forall_impl; [exact Hs|]. intros p [Hne _].
    unfold Entity.first_start_time, Entity.first_run.
    destruct (Entity.runs p); [done|]. by eexists. }
  simpl. destruct (place_probes_total (sort_keyed false ks).*2 (∅, [])) as [out ->].
  by exists out.
Qed.

End SlotFacts.

(** A probe that is retried while another one runs lands on its lane: a
    runs from 0 to 10 and again from 100 to 200, b runs from 50 to 150.  The
    second run of a is placed before b has a lane, and b is then tested at
    its start 50 only, so both rectangles are drawn in lane 0. *)
Lemma retry_same_lane (randint : nat -> Z) (b : bool) :
  let st := scan randint b [ProbeReturned "a" 10 0 10; ProbeReturned "b" 150 0 100;
                            ProbeReturned "a" 200 0 100] in
  exists slots : gmap string Z,
    plot_probes (lanes_bound (probes st)) (probes st)
    = Ok (Some (slots, [("a"%string, Run.mk 0 10 10 0 true, 0);
                        ("a"%string, Run.mk 100 200 100 0 true, 0);
                        ("b"%string, Run.mk 50 150 100 0 true, 0)])).
Proof. simpl. eexists. reflexivity. Qed.

(** C3: two probes that return at the same time after the same duration
    get the same lane.  On the feed [ProbeReturned a 100 0 100],
    [ProbeReturned b 100 0 100] both probes own the run from 0 to 100;
    when the run of b is placed, a holds lane 0 but is not running at time
    0 (the test is strict), so b is given lane 0 too, although both run at
    time 50. *)
Theorem same_start_same_lane (randint : nat -> Z) (b : bool) :
  let st := scan randint b [ProbeReturned "a" 100 0 100; ProbeReturned "b" 100 0 100] in
  let r := Run.mk 0 100 100 0 true in
  exists (pa pb : Probe.t) (slots : gmap string Z),
    PyDict.get (probes st) "a" = Some pa
    /\ PyDict.get (probes st) "b" = Some pb
    /\ Entity.name pa <> Entity.name pb
    /\ plot_probes (lanes_bound (probes st)) (probes st)
       = Ok (Some (slots, [("a"%string, r, 0); ("b"%string, r, 0)]))
    /\ slots !! "a"%string = Some 0
    /\ slots !! "b"%string = Some 0
    /\ Entity.running_at pa 50 = true
    /\ Entity.running_at pb 50 = true.
Proof.
  simpl. do 3 eexists. split; [reflexivity|]. split; [reflexivity|].
  split; [done|]. split; [reflexivity|]. by vm_compute.
Qed.

(** ** Colours *)

Section Uncolored.

Context {V W : Type} (f : V -> W).

Lemma get_fmap (d : PyDict.t V) (k : string) :
  PyDict.get (prod_map id f <$> d) k = f <$> PyDict.get d k.
Proof.
  induction d as [|[k' v] d IH]; [done|].
  simpl. by destruct (String.eqb k k').
Qed.

Lemma set_fmap (d : PyDict.t V) (k : string) (v : V) :
  prod_map id f <$> PyDict.set d k v = PyDict.set (prod_map id f <$> d) k (f v).
Proof.
  induction d as [|[k' v'] d IH]; [done|].
  simpl. destruct (String.eqb k k'); [done|]. simpl. f_equal. exact IH.
Qed.

Lemma values_fmap (d : PyDict.t V) :
  PyDict.values (prod_map id f <$> d) = f <$> PyDict.values d.
Proof.
  unfold PyDict.values. induction d as [|[k v] d IH]; [done|].
  simpl. f_equal. exact IH.
Qed.

End Uncolored.

Lemma addEnd_uncolored (e : Entity.t) (t d rv : Z) :
  Entity.addEnd (uncolored e) t d rv = uncolored <$> Entity.addEnd e t d rv.
Proof.
  unfold Entity.addEnd.
  change (Entity.last_run (uncolored e)) with (Entity.last_run e).
  destruct (Entity.last_run e) as [r|x]; [|done].
  simpl. by destruct (0 <=? Run.end_time r).
Qed.

(** A scan with any source of colours, once the colours are blanked, is
    the scan with the source that always draws 0. *)
Lemma step_uncolored (randint : nat -> Z) (b : bool) (st : state) (ev : event) :
  step (fun _ => 0) b (uncolored_state st) ev
  = (uncolored_state (step randint b st ev).1, (step randint b st ev).2).
Proof.
  destruct ev as [text|text|text|name time module|name time rv d|name time rv d|name time];
    simpl; try done.
  - rewrite get_fmap. destruct (PyDict.get (initcalls st) name) as [i|]; simpl.
    + unfold uncolored_state, set_initcalls. simpl. by rewrite set_fmap.
    + unfold uncolored_state, set_initcalls. simpl. by rewrite set_fmap.
  - rewrite get_fmap. destruct (PyDict.get (initcalls st) name) as [i|]; simpl; [|done].
    unfold Initcall.addEnd. simpl. rewrite addEnd_uncolored.
    destruct (Entity.addEnd (Initcall.entity i) (Z.of_N time) (Z.of_N d) rv) as [e'|x];
      simpl; [|done].
    unfold uncolored_state, set_initcalls. simpl. by rewrite set_fmap.
  - rewrite get_fmap. destruct (PyDict.get (probes st) name) as [p|]; simpl.
    + unfold uncolored_state, set_probes. simpl. by rewrite set_fmap.
    + unfold uncolored_state, set_probes. simpl. by rewrite set_fmap.
  - by destruct (init st).
Qed.

Lemma ingest_uncolored (randint : nat -> Z) (b : bool) (feed : list event) (st : state) :
  ingest (fun _ => 0) b (uncolored_state st) feed
  = uncolored_state (ingest randint b st feed).
Proof.
  revert st. induction feed as [|ev feed IH]; intros st; [done|].
  simpl. rewrite (step_uncolored randint).
  destruct (step randint b st ev) as [st' []]; simpl; [apply IH|done].
Qed.

Lemma scan_uncolored (randint : nat -> Z) (b : bool) (feed : list event) :
  uncolored_state (scan randint b feed) = scan (fun _ => 0) b feed.
Proof. unfold scan. by rewrite <- (ingest_uncolored randint). Qed.

(** ** The reports do not read the colours *)

Lemma bind_cong {A A' B : Type} (g : A -> A') (m : result A) (m' : result A')
    (k : A -> result B) (k' : A' -> result B) :
  m' = g <$> m -> (forall a, k' (g a) = k a) -> m' ≫= k' = m ≫= k.
Proof. intros -> Hk. destruct m; simpl; auto. Qed.

Lemma bind_same {A B : Type} (m : result A) (k k' : A -> result B) :
  (forall a, k' a = k a) -> m ≫= k' = m ≫= k.
Proof. intros Hk. destruct m; simpl; auto. Qed.

Lemma mapM_cons {A B : Type} (h : A -> result B) (x : A) (l : list A) :
  mapM h (x :: l) = y ← h x; k ← mapM h l; Ok (y :: k).
Proof. reflexivity. Qed.

Section Fmap.

Context {A A' : Type} (g : A -> A').

Lemma filterM_fmap (p : A -> result bool) (p' : A' -> result bool) (l : list A) :
  (forall x, p' (g x) = p x) -> filterM p' (g <$> l) = fmap (M:=list) g <$> filterM p l.
Proof.
  intros Hp. induction l as [|x l IH]; [done|].
  csimpl. rewrite Hp, IH.
  destruct (p x) as [[]|]; simpl; by destruct (filterM p l).
Qed.

Lemma mapM_fmap {B : Type} (h : A -> result B) (h' : A' -> result B) (l : list A) :
  (forall x, h' (g x) = h x) -> mapM h' (g <$> l) = mapM h l.
Proof.
  intros Hh. induction l as [|x l IH]; [done|].
  by rewrite fmap_cons, !mapM_cons, Hh, IH.
Qed.

Lemma insert_keyed_fmap (reverse : bool) (kx : Z * A) (l : list (Z * A)) :
  insert_keyed reverse (prod_map id g kx) (prod_map id g <$> l)
  = prod_map id g <$> insert_keyed reverse kx l.
Proof.
  induction l as [|ky l IH]; [done|].
  destruct kx as [k x], ky as [k' y]. simpl in *.
  destruct (if reverse then k' <=? k else k <=? k'); [done|].
  simpl. f_equal. exact IH.
Qed.

Lemma sort_keyed_fmap (reverse : bool) (l : list (Z * A)) :
  sort_keyed reverse (prod_map id g <$> l) = prod_map id g <$> sort_keyed reverse l.
Proof.
  induction l as [|kx l IH]; [done|].
  unfold sort_keyed in *. rewrite fmap_cons. cbn [foldr]. rewrite IH.
  apply insert_keyed_fmap.
Qed.

Lemma sorted_fmap (key : A -> result Z) (key' : A' -> result Z) (reverse : bool) (l : list A) :
  (forall x, key' (g x) = key x) ->
  sorted key' reverse (g <$> l) = fmap (M:=list) g <$> sorted key reverse l.
Proof.
  intros Hkey. unfold sorted.
  assert (Hks : mapM (fun x => k ← key' x; Ok (k, x)) (g <$> l)
                = fmap (M:=list) (prod_map id g) <$> mapM (fun x => k ← key x; Ok (k, x)) l).
  { induction l as [|x l IH]; [done|].
    rewrite fmap_cons, !mapM_cons, Hkey, IH. destruct (key x); simpl; [|done].
    by destruct (mapM _ l). }
  rewrite Hks. destruct (mapM _ l) as [ks|]; simpl; [|done].
  rewrite sort_keyed_fmap. f_equal.
  generalize (sort_keyed reverse ks). intros l'.
  induction l' as [|[k x] l' IH]; [done|]. simpl. f_equal. exact IH.
Qed.

Lemma length_filter_fmap (P : A -> Prop) (P' : A' -> Prop)
    `{!forall x, Decision (P x)} `{!forall x, Decision (P' x)} (l : list A) :
  (forall x, P' (g x) <-> P x) ->
  length (filter P' (g <$> l)) = length (filter P l).
Proof.
  intros HP. induction l as [|x l IH]; [done|].
  rewrite fmap_cons, !filter_cons.
  destruct (decide (P' (g x))) as [H1|H1], (decide (P x)) as [H2|H2];
    simpl; rewrite ?IH; try done; by apply HP in H1 || apply HP in H2.
Qed.

End Fmap.

Lemma all_entities_uncolored (st : state) :
  all_entities (uncolored_state st) = uncolored <$> all_entities st.
Proof.
  unfold all_entities. simpl. rewrite !values_fmap, fmap_app, <- !list_fmap_compose.
  done.
Qed.

Lemma init_last_start_time_uncolored (i : option Init.t) :
  init_last_start_time (uncolored <$> i) = init_last_start_time i.
Proof. by destruct i. Qed.

Lemma boot_end_uncolored (st : state) : boot_end (uncolored_state st) = boot_end st.
Proof.
  unfold boot_end. simpl. rewrite !values_fmap.
  rewrite (mapM_fmap uncolored_initcall
             (fun k => Entity.last_end_time (Initcall.entity k))) by done.
  by rewrite (mapM_fmap uncolored Entity.last_end_time) by done.
Qed.

Lemma text_uncolored (st : state) : text (uncolored_state st) = text st.
Proof.
  unfold text. rewrite boot_end_uncolored, all_entities_uncolored.
  cbn [initcalls probes init version machine cmdline uncolored_state].
  rewrite !values_fmap, init_last_start_time_uncolored.
  apply (bind_cong (fmap uncolored_initcall)); [by apply filterM_fmap|intros before].
  apply (bind_cong (fmap uncolored_initcall)); [by apply filterM_fmap|intros after].
  apply (bind_cong (fmap uncolored)); [by apply filterM_fmap|intros pending].
  apply (bind_cong (fmap uncolored)); [by apply filterM_fmap|intros failures].
  apply bind_same. intros total. apply bind_same. intros start.
  apply (bind_cong (fmap uncolored_initcall)); [by apply sorted_fmap|intros top_i].
  apply (bind_cong (fmap uncolored)); [by apply sorted_fmap|intros top_p].
  apply (bind_cong (fmap uncolored)); [by apply filterM_fmap|intros failures'].
  rewrite (mapM_fmap uncolored
             (fun d => rv ← Entity.retval d; Ok (Entity.name d, Z.abs rv))) by done.
  apply bind_same. intros failed_list.
  rewrite !length_fmap, <- !fmap_take, <- !list_fmap_compose. done.
Qed.

Section SlotColors.

Variable ps : PyDict.t Probe.t.

Lemma taken_uncolored (slots : gmap string Z) (time ypos : Z) :
  taken (prod_map id uncolored <$> ps) slots time ypos = taken ps slots time ypos.
Proof.
  unfold taken. rewrite values_fmap. do 2 f_equal.
  by apply length_filter_fmap.
Qed.

Lemma free_lane_uncolored (fuel : nat) (slots : gmap string Z) (time ypos : Z) :
  free_lane (prod_map id uncolored <$> ps) fuel slots time ypos
  = free_lane ps fuel slots time ypos.
Proof.
  revert ypos. induction fuel as [|fuel IH]; intros ypos; [done|].
  simpl. by rewrite taken_uncolored, IH.
Qed.

Lemma place_runs_uncolored (fuel : nat) (d : Probe.t) (rs : list Run.t)
    (acc : gmap string Z * list rect) :
  place_runs (prod_map id uncolored <$> ps) fuel (uncolored d) acc rs
  = place_runs ps fuel d acc rs.
Proof.
  revert acc. induction rs as [|r rs IH]; intros acc; [done|].
  simpl. unfold place_run. rewrite free_lane_uncolored.
  destruct (free_lane ps fuel acc.1 (Run.start_time r) 0); simpl; [apply IH|done].
Qed.

Lemma place_probes_uncolored (fuel : nat) (ds : list Probe.t)
    (acc : gmap string Z * list rect) :
  place_probes (prod_map id uncolored <$> ps) fuel acc (uncolored <$> ds)
  = place_probes ps fuel acc ds.
Proof.
  revert acc. induction ds as [|d ds IH]; intros acc; [done|].
  rewrite fmap_cons. cbn [place_probes].
  change (Entity.runs (uncolored d)) with (Entity.runs d).
  rewrite place_runs_uncolored.
  destruct (place_runs ps fuel d acc (Entity.runs d)); simpl; [apply IH|done].
Qed.

Lemma plot_probes_uncolored (fuel : nat) :
  plot_probes fuel (prod_map id uncolored <$> ps) = plot_probes fuel ps.
Proof.
  unfold plot_probes. rewrite values_fmap.
  apply (bind_cong (fmap uncolored)); [by apply sorted_fmap|intros ds].
  by rewrite place_probes_uncolored.
Qed.

End SlotColors.

Lemma after_init_uncolored (st : state) (d : Probe.t) :
  after_init (uncolored_state st) (uncolored d) = after_init st d.
Proof.
  unfold after_init. cbn [init uncolored_state].
  by rewrite init_last_start_time_uncolored.
Qed.

Lemma html_uncolored (b : bool) (st : state) : html b (uncolored_state st) = html b st.
Proof.
  unfold html, html_identification, html_init_marker, lanes_bound.
  rewrite boot_end_uncolored.
  cbn [initcalls probes init version machine cmdline uncolored_state].
  rewrite !values_fmap, !length_fmap, init_last_start_time_uncolored, plot_probes_uncolored.
  apply bind_same. intros ident. apply bind_same. intros slots.
  apply bind_same. intros marker.
  destruct (0 <? length (probes st))%nat; [|done].
  f_equal.
  apply (bind_cong (fmap uncolored)); [by apply sorted_fmap|intros ds].
  apply mapM_fmap. intros d. by rewrite after_init_uncolored.
Qed.

(** C9: two executions on the same feed, with whatever colours the random
    source gives to each, end in states that are equal once the colour tags
    are blanked: the same keys in the same order, the same names, run
    sequences and modules, the same init marker, strings and diagnostics.
    The two reports, the lanes of the probes and the outcome of the script
    are the same in both executions, and blanking the colours of a state
    changes none of them. *)
Theorem rerun_same_statistics (randint1 randint2 : nat -> Z) (b html_flag : bool)
    (feed : list event) :
  uncolored_state (scan randint1 b feed) = uncolored_state (scan randint2 b feed)
  /\ text (scan randint1 b feed) = text (scan randint2 b feed)
  /\ html b (scan randint1 b feed) = html b (scan randint2 b feed)
  /\ plot_probes (lanes_bound (probes (scan randint1 b feed))) (probes (scan randint1 b feed))
     = plot_probes (lanes_bound (probes (scan randint2 b feed))) (probes (scan randint2 b feed))
  /\ main randint1 html_flag b feed = main randint2 html_flag b feed
  /\ (forall st : state,
        text (uncolored_state st) = text st /\ html b (uncolored_state st) = html b st).
Proof.
  assert (Hsame : uncolored_state (scan randint1 b feed) = uncolored_state (scan randint2 b feed))
    by (by rewrite !scan_uncolored).
  assert (Htext : text (scan randint1 b feed) = text (scan randint2 b feed))
    by (by rewrite <- (text_uncolored (scan randint1 b feed)), Hsame, text_uncolored).
  assert (Hhtml : html b (scan randint1 b feed) = html b (scan randint2 b feed))
    by (by rewrite <- (html_uncolored b (scan randint1 b feed)), Hsame, html_uncolored).
  assert (Hprobes : prod_map id uncolored <$> probes (scan randint1 b feed)
                    = prod_map id uncolored <$> probes (scan randint2 b feed))
    by (by injection Hsame).
  assert (Hlen : forall st1 st2, uncolored_state st1 = uncolored_state st2 ->
                   length (initcalls st1) = length (initcalls st2)
                   /\ length (probes st1) = length (probes st2)).
  { intros st1 st2 H. injection H as Hi Hp _.
    apply (f_equal length) in Hi. apply (f_equal length) in Hp.
    rewrite !length_fmap in Hi. rewrite !length_fmap in Hp. done. }
  destruct (Hlen _ _ Hsame) as [Hli Hlp].
  repeat split; try done.
  - unfold lanes_bound. rewrite Hlp.
    rewrite <- (plot_probes_uncolored (probes (scan randint1 b feed))), Hprobes.
    apply plot_probes_uncolored.
  - unfold main. by rewrite Hli, Hhtml, Htext.
  - apply text_uncolored.
  - apply html_uncolored.
Qed.

(** * Further properties of the engine *)

(** ** The part of the feed that is read *)

Lemma scan_ingested (randint : nat -> Z) (b : bool) (feed : list event) :
  scan randint b feed = scan randint false (ingested b feed).
Proof.
  unfold scan, ingested. destruct b; [|done].
  destruct (ingest_until_init randint feed initial eq_refl) as [H1 H2]. congruence.
Qed.

Lemma ingest_cons_false (randint : nat -> Z) (st : state) (ev : event) (feed : list event) :
  ingest randint false st (ev :: feed)
  = ingest randint false (step randint false st ev).1 feed.
Proof. apply ingest_cons_continue. by left. Qed.

(** ** The runs of a probe *)

Lemma run_init_whole (t d : N) (rv : Z) :
  Run.init (Z.of_N t - Z.of_N d) (Z.of_N t) (Z.of_N d) rv = run_of_return (t, rv, d).
Proof.
  unfold Run.init, run_of_return. simpl. f_equal. apply Z.leb_le. lia.
Qed.

Lemma probe_init_whole (name : string) (c : Z * Z * Z) (t d : N) (rv : Z) :
  Entity.runs (Probe.init name c (Z.of_N t - Z.of_N d) (Z.of_N d) rv)
  = [run_of_return (t, rv, d)].
Proof.
  unfold Probe.init, Entity.init. simpl.
  replace (Z.of_N t - Z.of_N d + Z.of_N d) with (Z.of_N t) by lia.
  by rewrite run_init_whole.
Qed.

Lemma step_probe_runs (randint : nat -> Z) (b : bool) (st : state) (ev : event) (name : string) :
  from_option Entity.runs [] (PyDict.get (probes (step randint b st ev).1) name)
  = from_option Entity.runs [] (PyDict.get (probes st) name)
    ++ (run_of_return <$> probe_returns name [ev]).
Proof.
  destruct ev as [text|text|text|n t m|n t rv d|n t rv d|n t]; simpl;
    rewrite ?app_nil_r; try done.
  - by repeat case_match.
  - by repeat case_match.
  - destruct (String.eqb n name) eqn:Hn.
    + apply String.eqb_eq in Hn as ->.
      destruct (PyDict.get (probes st) name) as [p|] eqn:Hget; simpl.
      * rewrite get_set_eq. simpl. by rewrite run_init_whole.
      * rewrite get_set_eq. simpl.
        replace (Z.of_N t - Z.of_N d + Z.of_N d) with (Z.of_N t) by lia.
        by rewrite run_init_whole.
    + apply String.eqb_neq in Hn.
      destruct (PyDict.get (probes st) n) as [p|]; simpl;
        by rewrite get_set_ne, app_nil_r.
  - by repeat case_match.
Qed.

Lemma ingest_probe_runs (randint : nat -> Z) (feed : list event) (st : state) (name : string) :
  from_option Entity.runs [] (PyDict.get (probes (ingest randint false st feed)) name)
  = from_option Entity.runs [] (PyDict.get (probes st) name)
    ++ (run_of_return <$> probe_returns name feed).
Proof.
  revert st. induction feed as [|ev feed IH]; intros st.
  - by rewrite app_nil_r.
  - rewrite ingest_cons_false, IH, (step_probe_runs randint false st ev name).
    rewrite <- app_assoc, <- fmap_app. do 2 f_equal.
    unfold probe_returns. simpl. by destruct (probe_return_of name ev).
Qed.

(** ** Keys and names *)

Section PyDictMore.

Context {V : Type}.
Implicit Types (d : PyDict.t V) (k : string) (v : V).

Lemma Forall_set (P : string * V -> Prop) d k v :
  Forall P d -> P (k, v) -> Forall P (PyDict.set d k v).
Proof.
  intros Hd Hv. induction d as [|[k' v'] d IH]; simpl.
  - by constructor.
  - apply Forall_cons in Hd as [Hv' Hd].
    destruct (String.eqb k k'); constructor; auto.
Qed.

Lemma get_None_keys d k : PyDict.get d k = None <-> k ∉ PyDict.keys d.
Proof.
  unfold PyDict.keys. induction d as [|[k' v'] d IH]; simpl.
  - split; [intros _; apply not_elem_of_nil|done].
  - rewrite not_elem_of_cons. destruct (String.eqb_spec k k') as [->|Hne].
    + split; [done|]. by intros [? _].
    + rewrite IH. tauto.
Qed.

Lemma keys_set d k v :
  PyDict.keys (PyDict.set d k v)
  = match PyDict.get d k with
    | Some _ => PyDict.keys d
    | None => PyDict.keys d ++ [k]
    end.
Proof.
  unfold PyDict.keys. induction d as [|[k' v'] d IH]; [done|].
  cbn [PyDict.set PyDict.get]. destruct (String.eqb_spec k k') as [->|Hne]; [done|].
  rewrite !fmap_cons, IH. by destruct (PyDict.get d k).
Qed.

Lemma NoDup_keys_set d k v :
  NoDup (PyDict.keys d) -> NoDup (PyDict.keys (PyDict.set d k v)).
Proof.
  intros Hd. rewrite keys_set. destruct (PyDict.get d k) eqn:Hget; [done|].
  apply NoDup_app. repeat split; [done| |apply NoDup_singleton].
  intros x Hx Hx'. apply list_elem_of_singleton in Hx' as ->.
  by apply get_None_keys in Hget.
Qed.

Lemma elem_get d k v :
  NoDup (PyDict.keys d) -> (k, v) ∈ d -> PyDict.get d k = Some v.
Proof.
  unfold PyDict.keys. induction d as [|[k' v'] d IH]; cbn [PyDict.get].
  - intros _ H. by apply elem_of_nil in H.
  - rewrite fmap_cons, NoDup_cons. intros [Hk Hd] Hin.
    apply elem_of_cons in Hin as [[= -> ->]|Hin].
    + by rewrite String.eqb_refl.
    + destruct (String.eqb_spec k k') as [->|Hne]; [|by apply IH].
      destruct Hk. apply list_elem_of_fmap. by exists (k', v).
Qed.

Lemma get_elem d k v : PyDict.get d k = Some v -> (k, v) ∈ d.
Proof.
  induction d as [|[k' v'] d IH]; cbn [PyDict.get]; [done|].
  destruct (String.eqb_spec k k') as [->|Hne].
  - intros [= ->]. apply list_elem_of_here.
  - intros H. apply list_elem_of_further. auto.
Qed.

End PyDictMore.

Lemma get_named {V : Type} (nm : V -> string) (d : PyDict.t V) (k : string) (v : V) :
  Forall (fun kv => nm kv.2 = kv.1) d -> PyDict.get d k = Some v -> nm v = k.
Proof.
  induction d as [|[k' v'] d IH]; simpl; [done|].
  rewrite Forall_cons. intros [Hv Hd]. simpl in Hv.
  destruct (String.eqb_spec k k') as [->|Hne]; [|by apply IH].
  by intros [= <-].
Qed.

(** A dictionary whose entries sit under their own names, once each. *)
Lemma step_named (randint : nat -> Z) (b : bool) (st : state) (ev : event) :
  Forall (fun ki => Entity.name (Initcall.entity ki.2) = ki.1) (initcalls st)
  /\ Forall (fun kp => Entity.name kp.2 = kp.1) (probes st)
  /\ NoDup (PyDict.keys (initcalls st)) /\ NoDup (PyDict.keys (probes st)) ->
  Forall (fun ki => Entity.name (Initcall.entity ki.2) = ki.1)
         (initcalls (step randint b st ev).1)
  /\ Forall (fun kp => Entity.name kp.2 = kp.1) (probes (step randint b st ev).1)
  /\ NoDup (PyDict.keys (initcalls (step randint b st ev).1))
  /\ NoDup (PyDict.keys (probes (step randint b st ev).1)).
Proof.
  intros (Hi & Hp & Hki & Hkp).
  destruct ev as [text|text|text|n t m|n t rv d|n t rv d|n t]; simpl; try done.
  - destruct (PyDict.get (initcalls st) n) as [i|] eqn:Hget; simpl.
    + repeat split; try done; [|by apply NoDup_keys_set].
      apply Forall_set; [done|]. simpl.
      exact (get_named (fun i => Entity.name (Initcall.entity i)) _ _ _ Hi Hget).
    + repeat split; try done; [|by apply NoDup_keys_set]. by apply Forall_set.
  - destruct (PyDict.get (initcalls st) n) as [i|] eqn:Hget; simpl; [|done].
    unfold Initcall.addEnd, Entity.addEnd.
    destruct (Entity.last_run (Initcall.entity i)) as [r|x]; simpl; [|done].
    assert (Hn : Entity.name (Initcall.entity i) = n).
    { exact (get_named (fun i => Entity.name (Initcall.entity i)) _ _ _ Hi Hget). }
    destruct (0 <=? Run.end_time r); simpl;
      (repeat split; try done; [by apply Forall_set|by apply NoDup_keys_set]).
  - destruct (PyDict.get (probes st) n) as [p|] eqn:Hget; simpl.
    + repeat split; try done; [|by apply NoDup_keys_set].
      apply Forall_set; [done|]. simpl.
      exact (get_named Entity.name _ _ _ Hp Hget).
    + repeat split; try done; [|by apply NoDup_keys_set]. by apply Forall_set.
  - by destruct (init st).
Qed.

Lemma scan_named (randint : nat -> Z) (b : bool) (feed : list event) :
  Forall (fun ki => Entity.name (Initcall.entity ki.2) = ki.1) (initcalls (scan randint b feed))
  /\ Forall (fun kp => Entity.name kp.2 = kp.1) (probes (scan randint b feed))
  /\ NoDup (PyDict.keys (initcalls (scan randint b feed)))
  /\ NoDup (PyDict.keys (probes (scan randint b feed))).
Proof.
  unfold scan.
  assert (H0 : Forall (fun ki => Entity.name (Initcall.entity ki.2) = ki.1) (initcalls initial)
               /\ Forall (fun kp : string * Probe.t => Entity.name kp.2 = kp.1) (probes initial)
               /\ NoDup (PyDict.keys (initcalls initial))
               /\ NoDup (PyDict.keys (probes initial))).
  { repeat split; try constructor. }
  revert H0. generalize initial. induction feed as [|ev feed IH]; intros st Hst; [done|].
  simpl. pose proof (step_named randint b st ev Hst) as Hstep.
  destruct (step randint b st ev) as [st' []]; auto.
Qed.

Lemma scan_probe_runs (randint : nat -> Z) (b : bool) (feed : list event) (name : string) :
  from_option Entity.runs [] (PyDict.get (probes (scan randint b feed)) name)
  = run_of_return <$> probe_returns name (ingested b feed).
Proof.
  rewrite scan_ingested. unfold scan.
  by rewrite (ingest_probe_runs randint (ingested b feed) initial name).
Qed.

(** X1: after a scan the probe [name] is in the dictionary exactly when the
    part of the feed that was read holds a return of [name]; its run
    sequence is then the sequence of those returns, in the order of the
    feed, each as the run that starts [duration] before the time of the
    line, ends at that time and carries the given duration and return
    code. *)
Theorem probe_runs_are_returns (randint : nat -> Z) (b : bool) (feed : list event)
    (name : string) :
  match PyDict.get (probes (scan randint b feed)) name with
  | None => probe_returns name (ingested b feed) = []
  | Some p =>
      Entity.name p = name
      /\ probe_returns name (ingested b feed) <> []
      /\ Entity.runs p = run_of_return <$> probe_returns name (ingested b feed)
  end.
Proof.
  pose proof (scan_sound randint b feed) as Hs. apply sound_split in Hs as (_ & Hp & _).
  destruct (scan_named randint b feed) as (_ & Hn & _).
  pose proof (scan_probe_runs randint b feed name) as Hruns.
  destruct (PyDict.get (probes (scan randint b feed)) name) as [p|] eqn:Hget;
    simpl in Hruns.
  - split; [exact (get_named Entity.name _ _ _ Hn Hget)|]. split; [|done].
    intros Hnil. rewrite Hnil in Hruns.
    by destruct (get_sound sound_entity _ _ _ Hp Hget).
  - by destruct (probe_returns name (ingested b feed)).
Qed.

(** X2: the figures of a probe follow from its returns: its duration is
    the sum of their durations, its number of deferred probes is the number
    of returns whose code is 517 or -517, its first start time is the time
    of the first return less its duration, and its last end time, return
    code and pending deferral are those of the last return. *)
Theorem probe_figures (randint : nat -> Z) (b : bool) (feed : list event)
    (name : string) (p : Probe.t) (first last_ : N * Z * N) :
  PyDict.get (probes (scan randint b feed)) name = Some p ->
  head (probe_returns name (ingested b feed)) = Some first ->
  last (probe_returns name (ingested b feed)) = Some last_ ->
  Entity.duration p = sum ((fun x => Z.of_N x.2) <$> probe_returns name (ingested b feed))
  /\ Probe.num_deferred_probes p
     = length (filter (fun x : N * Z * N => Z.abs x.1.2 = 517)
                 (probe_returns name (ingested b feed)))
  /\ Entity.first_start_time p = Ok (Z.of_N first.1.1 - Z.of_N first.2)
  /\ Entity.last_end_time p = Ok (Z.of_N last_.1.1)
  /\ Entity.retval p = Ok last_.1.2
  /\ Probe.deferred_probe_pending p = Ok (bool_decide (Z.abs last_.1.2 = 517)).
Proof.
  intros Hget Hfirst Hlast.
  pose proof (scan_probe_runs randint b feed name) as Hruns.
  rewrite Hget in Hruns. simpl in Hruns.
  unfold Entity.duration, Probe.num_deferred_probes, Entity.first_start_time,
    Entity.last_end_time, Entity.retval, Probe.deferred_probe_pending,
    Entity.first_run, Entity.last_run.
  rewrite Hruns, fmap_last, Hlast.
  destruct (probe_returns name (ingested b feed)) as [|x rets] eqn:Hrets; [done|].
  injection Hfirst as ->. repeat split.
  - by rewrite <- list_fmap_compose.
  - apply length_filter_fmap. intros y. unfold Run.deferred, ERRCODE_PROBE_DEFER.
    simpl. by rewrite Z.eqb_eq.
  - simpl. unfold Run.deferred, ERRCODE_PROBE_DEFER. simpl. f_equal.
    case_bool_decide; destruct (Z.eqb_spec (Z.abs last_.1.2) 517); done.
Qed.

Lemma probe_figures_witness :
  exists p,
    PyDict.get (probes (scan (fun _ => 0) false
                  [ProbeReturned "bar" 200 (-517) 50; CallStarted "foo" 210 "";
                   ProbeReturned "bar" 400 0 30])) "bar" = Some p
    /\ Entity.duration p = 80
    /\ Probe.num_deferred_probes p = 1%nat
    /\ Entity.first_start_time p = Ok 150
    /\ Entity.last_end_time p = Ok 400
    /\ Entity.retval p = Ok 0
    /\ Probe.deferred_probe_pending p = Ok false.
Proof.
  eexists. split; [reflexivity|].
  exact (probe_figures (fun _ => 0) false
           [ProbeReturned "bar" 200 (-517) 50; CallStarted "foo" 210 "";
            ProbeReturned "bar" 400 0 30]
           "bar" _ (200%N, -517, 50%N) (400%N, 0, 30%N) eq_refl eq_refl eq_refl).
Defined.

(** ** Probe runs are whole *)

Lemma whole_run_of_return (x : N * Z * N) : whole_run (run_of_return x).
Proof. destruct x as [[t rv] d]. unfold whole_run, run_of_return. simpl. lia. Qed.

Lemma scan_whole (randint : nat -> Z) (b : bool) (feed : list event) :
  Forall (fun p => Forall whole_run (Entity.runs p)) (PyDict.values (probes (scan randint b feed))).
Proof.
  unfold scan.
  assert (H0 : Forall (fun p : Probe.t => Forall whole_run (Entity.runs p))
                 (PyDict.values (probes initial))) by constructor.
  revert H0. generalize initial. induction feed as [|ev feed IH]; intros st Hst; [done|].
  simpl.
  assert (Hstep : Forall (fun p : Probe.t => Forall whole_run (Entity.runs p))
                    (PyDict.values (probes (step randint b st ev).1))).
  { destruct ev as [text|text|text|n t m|n t rv d|n t rv d|n t]; simpl; try done.
    - by repeat case_match.
    - by repeat case_match.
    - destruct (PyDict.get (probes st) n) as [p|] eqn:Hget; simpl.
      + apply Forall_values_set; [done|]. simpl. apply Forall_app. split.
        * exact (get_sound (fun p => Forall whole_run (Entity.runs p)) _ _ _ Hst Hget).
        * rewrite run_init_whole. repeat constructor; apply whole_run_of_return.
      + apply Forall_values_set; [done|]. rewrite probe_init_whole.
        repeat constructor; apply whole_run_of_return.
    - by repeat case_match. }
  destruct (step randint b st ev) as [st' []]; auto.
Qed.

(** X3: every run of every probe is whole: it is ended, it ends at a time
    that is not negative, and its end is its start plus its duration.  So
    a probe is running exactly when a deferred probe is pending, and the
    status cell of the probes table is DEFERRED, FAILED or OK: its RUNNING
    arm is never taken. *)
Theorem probe_status_never_running (randint : nat -> Z) (b : bool) (feed : list event) :
  Forall (fun p : Probe.t =>
            Forall whole_run (Entity.runs p)
            /\ Entity.running p = Probe.deferred_probe_pending p
            /\ (probe_status p = Ok "DEFERRED"%string
                \/ probe_status p = Ok "FAILED"%string
                \/ probe_status p = Ok "OK"%string))
         (PyDict.values (probes (scan randint b feed))).
Proof.
  pose proof (scan_sound randint b feed) as Hs. apply sound_split in Hs as (_ & Hp & _).
  pose proof (scan_whole randint b feed) as Hw.
  rewrite Forall_forall in *. intros p Hin.
  specialize (Hp p Hin). specialize (Hw p Hin).
  destruct (last_run_sound p (proj1 Hp)) as (rs & r & Hruns & Hlast).
  assert (Hr : whole_run r).
  { rewrite Hruns in Hw. apply Forall_app in Hw as [_ Hw]. by inversion Hw. }
  destruct Hr as (Hended & _).
  assert (Hrun : Run.running r = Run.deferred r).
  { unfold Run.running. by rewrite Hended. }
  split; [done|].
  unfold probe_status, Entity.running, Probe.deferred_probe_pending, Entity.failed.
  rewrite Hlast. simpl. rewrite Hrun. split; [done|].
  unfold Run.failed. rewrite Hrun.
  destruct (Run.deferred r); simpl; [by left|].
  destruct (Run.retval r =? 0); simpl; auto.
Qed.

(** X5: in both dictionaries every entity is stored under its own name, and
    no name is stored twice. *)
Theorem names_are_keys (randint : nat -> Z) (b : bool) (feed : list event) :
  Forall (fun ki => Entity.name (Initcall.entity ki.2) = ki.1) (initcalls (scan randint b feed))
  /\ Forall (fun kp => Entity.name kp.2 = kp.1) (probes (scan randint b feed))
  /\ NoDup (PyDict.keys (initcalls (scan randint b feed)))
  /\ NoDup (PyDict.keys (probes (scan randint b feed)))
  /\ (forall (name : string) (i : Initcall.t),
        (name, i) ∈ initcalls (scan randint b feed)
        <-> PyDict.get (initcalls (scan randint b feed)) name = Some i)
  /\ (forall (name : string) (p : Probe.t),
        (name, p) ∈ probes (scan randint b feed)
        <-> PyDict.get (probes (scan randint b feed)) name = Some p).
Proof.
  destruct (scan_named randint b feed) as (Hi & Hp & Hki & Hkp).
  repeat split; try done; try (by apply elem_get); apply get_elem.
Qed.

(** ** The three strings *)

Lemma last_omap_cons {A B : Type} (f : A -> option B) (x : A) (l : list A) (dflt : B) :
  default dflt (last (omap f (x :: l))) = default (default dflt (f x)) (last (omap f l)).
Proof.
  cbn [omap list_omap]. destruct (f x) as [y|]; [|done].
  rewrite last_cons. by destruct (last _).
Qed.

Lemma ingest_strings (randint : nat -> Z) (feed : list event) (st : state) :
  version (ingest randint false st feed) = default (version st) (last (omap version_of feed))
  /\ machine (ingest randint false st feed) = default (machine st) (last (omap machine_of feed))
  /\ cmdline (ingest randint false st feed) = default (cmdline st) (last (omap cmdline_of feed)).
Proof.
  revert st. induction feed as [|ev feed IH]; intros st; [done|].
  rewrite ingest_cons_false, !last_omap_cons.
  destruct (IH (step randint false st ev).1) as (-> & -> & ->).
  destruct ev; simpl; repeat case_match; done.
Qed.

(** X9: each of the three strings ends as the text of the last line of its
    kind in the part of the feed that was read, and as Unknown when there
    is none. *)
Theorem last_text_wins (randint : nat -> Z) (b : bool) (feed : list event) :
  version (scan randint b feed)
  = default "Unknown"%string (last (omap version_of (ingested b feed)))
  /\ machine (scan randint b feed)
     = default "Unknown"%string (last (omap machine_of (ingested b feed)))
  /\ cmdline (scan randint b feed)
     = default "Unknown"%string (last (omap cmdline_of (ingested b feed))).
Proof. rewrite scan_ingested. apply (ingest_strings randint (ingested b feed) initial). Qed.

(** ** Nothing is lost *)

Lemma entity_grows_refl (e : Entity.t) : entity_grows e e.
Proof. by split_and!. Qed.

Lemma entity_grows_trans (e1 e2 e3 : Entity.t) :
  entity_grows e1 e2 -> entity_grows e2 e3 -> entity_grows e1 e3.
Proof.
  intros (Hn & Hc & Hr) (Hn' & Hc' & Hr'). split_and!; [congruence..|by etrans].
Qed.

Lemma state_grows_refl (st : state) : state_grows st st.
Proof.
  split_and!; try done.
  - intros k i Hget. exists i. by split_and!.
  - intros k p Hget. by exists p.
Qed.

Lemma state_grows_trans (st1 st2 st3 : state) :
  state_grows st1 st2 -> state_grows st2 st3 -> state_grows st1 st3.
Proof.
  intros (Hki & Hkp & Hi & Hp & Hinit) (Hki' & Hkp' & Hi' & Hp' & Hinit').
  split_and!; [by etrans|by etrans| | |by auto].
  - intros k i Hget. destruct (Hi k i Hget) as (i2 & Hget2 & Hm & Hg).
    destruct (Hi' k i2 Hget2) as (i3 & Hget3 & Hm' & Hg').
    exists i3. split_and!; [done|congruence|by eapply entity_grows_trans].
  - intros k p Hget. destruct (Hp k p Hget) as (p2 & Hget2 & Hn & Hc & Hr).
    destruct (Hp' k p2 Hget2) as (p3 & Hget3 & Hn' & Hc' & Hr').
    exists p3. split_and!; [done|congruence|congruence|by etrans].
Qed.

Lemma keys_set_prefix {V : Type} (d : PyDict.t V) (k : string) (v : V) :
  PyDict.keys d `prefix_of` PyDict.keys (PyDict.set d k v).
Proof.
  rewrite keys_set. destruct (PyDict.get d k); [done|]. by apply prefix_app_r.
Qed.

Lemma addEnd_grows (e e' : Entity.t) (t d rv : Z) :
  Entity.addEnd e t d rv = Ok e' -> entity_grows e e'.
Proof.
  unfold Entity.addEnd, Entity.last_run.
  destruct (last (Entity.runs e)) as [r|] eqn:Hlast; simpl; [|done].
  apply last_Some in Hlast as [rs Hruns].
  destruct (0 <=? Run.end_time r); intros [= <-]; split_and!; simpl; try done.
  - rewrite fmap_app. by apply prefix_app_r.
  - by rewrite Hruns, insert_last, !fmap_app.
Qed.

Lemma addStart_grows (e : Entity.t) (t : Z) : entity_grows e (Entity.addStart e t).
Proof.
  unfold entity_grows. split_and!; simpl; try done.
  rewrite fmap_app. by apply prefix_app_r.
Qed.

(** What a set under a key does to the look-ups of a dictionary that
    grows. *)
Lemma grows_set {V : Type} (R : V -> V -> Prop) (d : PyDict.t V) (k : string) (v : V) :
  (forall v0, R v0 v0) ->
  (forall v0, PyDict.get d k = Some v0 -> R v0 v) ->
  forall k0 v0, PyDict.get d k0 = Some v0 ->
    exists v', PyDict.get (PyDict.set d k v) k0 = Some v' /\ R v0 v'.
Proof.
  intros Hrefl Hk k0 v0 Hget. destruct (String.eqb_spec k k0) as [->|Hne].
  - exists v. rewrite get_set_eq. auto.
  - exists v0. rewrite get_set_ne by done. auto.
Qed.

Lemma step_grows (randint : nat -> Z) (b : bool) (st : state) (ev : event) :
  state_grows st (step randint b st ev).1.
Proof.
  pose proof (state_grows_refl st) as Hrefl.
  destruct ev as [text|text|text|n t m|n t rv d|n t rv d|n t]; simpl; try done.
  - destruct (PyDict.get (initcalls st) n) as [i|] eqn:Hget; simpl.
    + destruct Hrefl as (_ & Hkp & _ & Hp & Hinit).
      split_and!; try done; [apply keys_set_prefix|]. simpl.
      apply (grows_set (fun i i' => Initcall.module i' = Initcall.module i
                          /\ entity_grows (Initcall.entity i) (Initcall.entity i'))).
      * intros i0. split; [done|apply entity_grows_refl].
      * intros i0 Hget0. rewrite Hget in Hget0. injection Hget0 as <-.
        split; [done|]. apply addStart_grows.
    + destruct Hrefl as (_ & Hkp & _ & Hp & Hinit).
      split_and!; try done; [apply keys_set_prefix|]. simpl.
      apply (grows_set (fun i i' => Initcall.module i' = Initcall.module i
                          /\ entity_grows (Initcall.entity i) (Initcall.entity i'))).
      * intros i0. split; [done|apply entity_grows_refl].
      * intros i0 Hget0. by rewrite Hget in Hget0.
  - destruct (PyDict.get (initcalls st) n) as [i|] eqn:Hget; simpl; [|done].
    unfold Initcall.addEnd.
    destruct (Entity.addEnd (Initcall.entity i) (Z.of_N t) (Z.of_N d) rv) as [e'|x] eqn:Hend;
      simpl; [|done].
    destruct Hrefl as (_ & Hkp & _ & Hp & Hinit).
    split_and!; try done; [apply keys_set_prefix|]. simpl.
    apply (grows_set (fun i i' => Initcall.module i' = Initcall.module i
                        /\ entity_grows (Initcall.entity i) (Initcall.entity i'))).
    + intros i0. split; [done|apply entity_grows_refl].
    + intros i0 Hget0. rewrite Hget in Hget0. injection Hget0 as <-.
      split; [done|]. simpl. by eapply addEnd_grows.
  - destruct (PyDict.get (probes st) n) as [p|] eqn:Hget; simpl.
    + destruct Hrefl as (Hki & _ & Hi & _ & Hinit).
      split_and!; try done; [apply keys_set_prefix|]. simpl.
      apply (grows_set (fun p p' : Probe.t =>
                          Entity.name p' = Entity.name p /\ Entity.color p' = Entity.color p
                          /\ Entity.runs p `prefix_of` Entity.runs p')).
      * by intros p0.
      * intros p0 Hget0. rewrite Hget in Hget0. injection Hget0 as <-.
        split_and!; simpl; try done. by apply prefix_app_r.
    + destruct Hrefl as (Hki & _ & Hi & _ & Hinit).
      split_and!; try done; [apply keys_set_prefix|]. simpl.
      apply (grows_set (fun p p' : Probe.t =>
                          Entity.name p' = Entity.name p /\ Entity.color p' = Entity.color p
                          /\ Entity.runs p `prefix_of` Entity.runs p')).
      * by intros p0.
      * intros p0 Hget0. by rewrite Hget in Hget0.
  - destruct (init st) eqn:Hi0; simpl; [done|].
    destruct Hrefl as (Hki & Hkp & Hi & Hp & _).
    split_and!; try done. intros i. by rewrite Hi0.
Qed.

Lemma ingest_grows (randint : nat -> Z) (b : bool) (feed : list event) (st : state) :
  state_grows st (ingest randint b st feed).
Proof.
  revert st. induction feed as [|ev feed IH]; intros st; [apply state_grows_refl|].
  simpl. pose proof (step_grows randint b st ev) as Hstep.
  destruct (step randint b st ev) as [st' []]; simpl in *; [|done].
  eapply state_grows_trans; [exact Hstep|apply IH].
Qed.

Lemma ingested_app (b : bool) (feed1 feed2 : list event) :
  exists rest, ingested b (feed1 ++ feed2) = ingested b feed1 ++ rest.
Proof.
  destruct b; simpl; [|by exists feed2].
  induction feed1 as [|ev feed1 [rest IH]]; [by exists (until_init feed2)|].
  destruct ev; simpl; rewrite ?IH; try (by exists rest). by exists [].
Qed.

Lemma scan_app_grows (randint : nat -> Z) (b : bool) (feed1 feed2 : list event) :
  state_grows (scan randint b feed1) (scan randint b (feed1 ++ feed2)).
Proof.
  rewrite (scan_ingested randint b feed1), (scan_ingested randint b (feed1 ++ feed2)).
  destruct (ingested_app b feed1 feed2) as [rest ->].
  unfold scan. rewrite ingest_app by done. apply ingest_grows.
Qed.

Lemma grows_first_start (e e' : Entity.t) :
  entity_grows e e' -> Entity.runs e <> [] ->
  Entity.first_start_time e' = Entity.first_start_time e
  /\ (length (Entity.runs e) <= length (Entity.runs e'))%nat.
Proof.
  intros (_ & _ & Hpre) Hne. split.
  - unfold Entity.first_start_time, Entity.first_run.
    destruct Hpre as [k Hk].
    destruct (Entity.runs e) as [|r rs]; [done|].
    destruct (Entity.runs e') as [|r' rs']; [done|].
    simpl in *. by injection Hk as -> _.
  - apply prefix_length in Hpre. by rewrite !length_fmap in Hpre.
Qed.

Lemma sum_nonneg (l : list Run.t) :
  Forall (fun r => 0 <= Run.duration r) l -> 0 <= sum (Run.duration <$> l).
Proof.
  unfold sum. induction 1 as [|r l Hr _ IH]; [done|].
  rewrite fmap_cons. cbn [foldr]. lia.
Qed.

Lemma sum_app (l k : list Z) : sum (l ++ k) = sum l + sum k.
Proof.
  unfold sum. induction l as [|x l IH]; [done|].
  rewrite <- app_comm_cons. cbn [foldr]. lia.
Qed.

(** X6: a longer feed only adds to what a shorter one gave.  After the scan
    of [feed1 ++ feed2] the keys of both dictionaries are those after the
    scan of [feed1], in the same order, followed by the new ones; every
    initcall is still there with its name, colour, module and first start
    time, the start times of its runs are kept and new ones follow; every
    probe is still there with its name and colour, its runs are kept as
    they were and new ones follow, so its duration does not decrease; an
    init marker that was set is unchanged. *)
Theorem nothing_is_lost (randint : nat -> Z) (b : bool) (feed1 feed2 : list event) :
  let st1 := scan randint b feed1 in
  let st2 := scan randint b (feed1 ++ feed2) in
  state_grows st1 st2
  /\ (forall (k : string) (i : Initcall.t),
        PyDict.get (initcalls st1) k = Some i ->
        exists i', PyDict.get (initcalls st2) k = Some i'
          /\ Entity.first_start_time (Initcall.entity i')
             = Entity.first_start_time (Initcall.entity i)
          /\ (length (Entity.runs (Initcall.entity i))
              <= length (Entity.runs (Initcall.entity i')))%nat)
  /\ (forall (k : string) (p : Probe.t),
        PyDict.get (probes st1) k = Some p ->
        exists p', PyDict.get (probes st2) k = Some p'
          /\ Entity.first_start_time p' = Entity.first_start_time p
          /\ Entity.duration p <= Entity.duration p').
Proof.
  intros st1 st2.
  pose proof (scan_app_grows randint b feed1 feed2) as Hg. fold st1 st2 in Hg.
  pose proof (scan_sound randint b feed1) as Hs. fold st1 in Hs.
  apply sound_split in Hs as (Hsi & Hsp & _).
  pose proof (scan_sound randint b (feed1 ++ feed2)) as Hs2. fold st2 in Hs2.
  apply sound_split in Hs2 as (_ & Hsp2 & _).
  split; [done|]. destruct Hg as (_ & _ & Hi & Hp & _). split.
  - intros k i Hget. destruct (Hi k i Hget) as (i' & Hget' & _ & Hgrow).
    exists i'. split; [done|]. apply grows_first_start; [done|].
    exact (proj1 (get_sound (fun i => sound_entity (Initcall.entity i)) _ _ _ Hsi Hget)).
  - intros k p Hget. destruct (Hp k p Hget) as (p' & Hget' & _ & _ & [more Hruns]).
    exists p'. split; [done|].
    destruct (get_sound sound_entity _ _ _ Hsp Hget) as [Hne _].
    destruct (get_sound sound_entity _ _ _ Hsp2 Hget') as [_ Hdur].
    unfold Entity.first_start_time, Entity.first_run, Entity.duration.
    rewrite Hruns in *. split.
    + by destruct (Entity.runs p).
    + apply Forall_app in Hdur as [_ Hdur]. apply sum_nonneg in Hdur.
      rewrite fmap_app, sum_app. lia.
Qed.

(** ** The first call and the first init line *)

Lemma step_no_call (randint : nat -> Z) (b : bool) (st : state) (ev : event) (name : string) :
  calls name ev = false ->
  PyDict.get (initcalls st) name = None ->
  PyDict.get (initcalls (step randint b st ev).1) name = None.
Proof.
  intros Hev Hget.
  destruct ev as [text|text|text|n t m|n t rv d|n t rv d|n t]; simpl in *; try done.
  - apply String.eqb_neq in Hev. repeat case_match; simpl; by rewrite get_set_ne.
  - destruct (String.eqb_spec n name) as [->|Hne].
    + by rewrite Hget.
    + repeat case_match; simpl; by rewrite ?get_set_ne.
  - by repeat case_match.
  - by repeat case_match.
Qed.

Lemma ingest_no_call (randint : nat -> Z) (b : bool) (feed : list event) (st : state)
    (name : string) :
  Forall (fun ev => calls name ev = false) feed ->
  PyDict.get (initcalls st) name = None ->
  PyDict.get (initcalls (ingest randint b st feed)) name = None.
Proof.
  intros H. revert st. induction H as [|ev feed Hev _ IH]; intros st Hget; [done|].
  simpl. pose proof (step_no_call randint b st ev name Hev Hget) as Hstep.
  destruct (step randint b st ev) as [st' []]; simpl in *; auto.
Qed.

Lemma scan_first_call (randint : nat -> Z) (pre post : list event) (name : string)
    (t : N) (m : string) :
  Forall (fun ev => calls name ev = false) pre ->
  exists i, PyDict.get (initcalls (scan randint false (pre ++ CallStarted name t m :: post))) name
            = Some i
    /\ Entity.name (Initcall.entity i) = name
    /\ Initcall.module i = m
    /\ Entity.first_start_time (Initcall.entity i) = Ok (Z.of_N t)
    /\ Entity.color (Initcall.entity i) = (fresh_color randint (scan randint false pre)).1.
Proof.
  intros Hpre. unfold scan. rewrite ingest_app by done.
  pose proof (ingest_no_call randint false pre initial name Hpre eq_refl) as Hnone.
  set (st := ingest randint false initial pre) in *.
  rewrite ingest_cons_false. simpl. rewrite Hnone. simpl.
  set (i0 := Initcall.init name _ (Z.of_N t) m).
  set (st1 := set_initcalls _ _).
  destruct (ingest_grows randint false post st1) as (_ & _ & Hi & _).
  destruct (Hi name i0) as (i & Hget & Hm & Hgrow); [apply get_set_eq|].
  exists i. split; [done|].
  destruct (grows_first_start _ _ Hgrow) as [Hfirst _]; [done|].
  destruct Hgrow as (Hn & Hc & _). by split_and!.
Qed.

(** X7: an initcall is what its first call made it.  When the part of the
    feed that is read holds a call of [name], the entity is in the
    dictionary under that name with the module and the time of its first
    call as module and first start time, and with the colour drawn at that
    call; later calls change none of them. *)
Theorem first_call_wins (randint : nat -> Z) (b : bool) (feed pre post : list event)
    (name : string) (t : N) (m : string) :
  ingested b feed = pre ++ CallStarted name t m :: post ->
  Forall (fun ev => calls name ev = false) pre ->
  exists i, PyDict.get (initcalls (scan randint b feed)) name = Some i
    /\ Entity.name (Initcall.entity i) = name
    /\ Initcall.module i = m
    /\ Entity.first_start_time (Initcall.entity i) = Ok (Z.of_N t)
    /\ Entity.color (Initcall.entity i) = (fresh_color randint (scan randint false pre)).1.
Proof.
  intros Hfeed Hpre. rewrite scan_ingested, Hfeed. by apply scan_first_call.
Qed.

Lemma first_call_wins_witness :
  exists i, PyDict.get (initcalls (scan (fun n => Z.of_nat n) true
                         [CallStarted "b" 5 ""; CallStarted "a" 10 "m1"; CallReturned "a" 12 0 2;
                          CallStarted "a" 20 "m2"; InitStarted "/init" 30;
                          CallStarted "a" 40 "m3"])) "a" = Some i
    /\ Entity.name (Initcall.entity i) = "a"%string
    /\ Initcall.module i = "m1"%string
    /\ Entity.first_start_time (Initcall.entity i) = Ok 10
    /\ Entity.color (Initcall.entity i) = (3, 4, 5).
Proof.
  exact (first_call_wins (fun n => Z.of_nat n) true
           [CallStarted "b" 5 ""; CallStarted "a" 10 "m1"; CallReturned "a" 12 0 2;
            CallStarted "a" 20 "m2"; InitStarted "/init" 30; CallStarted "a" 40 "m3"]
           [CallStarted "b" 5 ""]
           [CallReturned "a" 12 0 2; CallStarted "a" 20 "m2"; InitStarted "/init" 30]
           "a" 10%N "m1" eq_refl ltac:(repeat constructor)).
Defined.

(** X8: the init marker is what the first init line made it, in both
    modes: one run that starts at the time of that line, under the name of
    that line; later init lines change nothing. *)
Theorem first_init_wins (randint : nat -> Z) (b : bool) (feed pre post : list event)
    (name : string) (t : N) :
  ingested b feed = pre ++ InitStarted name t :: post ->
  Forall (fun ev => is_InitStarted ev = false) pre ->
  init (scan randint b feed)
  = Some (Init.init name (fresh_color randint (scan randint false pre)).1 (Z.of_N t))
  /\ init_last_start_time (init (scan randint b feed)) = Ok (Z.of_N t).
Proof.
  intros Hfeed Hpre. rewrite scan_ingested, Hfeed. unfold scan.
  rewrite ingest_app by done.
  pose proof (ingest_init_kept randint false initial pre Hpre) as Hnone.
  set (st := ingest randint false initial pre) in *.
  rewrite ingest_cons_false. simpl in *. rewrite Hnone. simpl.
  set (st1 := set_init _ _).
  destruct (ingest_grows randint false post st1) as (_ & _ & _ & _ & Hinit).
  rewrite (Hinit _ eq_refl). done.
Qed.

Lemma first_init_wins_witness :
  init (scan (fun _ => 0) false
          [CallStarted "a" 10 ""; InitStarted "/sbin/init" 30; InitStarted "/bin/sh" 50])
  = Some (Init.init "/sbin/init" (0, 0, 0) 30).
Proof.
  exact (proj1 (first_init_wins (fun _ => 0) false
           [CallStarted "a" 10 ""; InitStarted "/sbin/init" 30; InitStarted "/bin/sh" 50]
           [CallStarted "a" 10 ""] [InitStarted "/bin/sh" 50] "/sbin/init" 30%N
           eq_refl ltac:(repeat constructor))).
Defined.

(** ** Sorting and filtering *)

Section SortFacts.

Context {A : Type}.
Implicit Types (l : list (Z * A)) (kx : Z * A).

(** The order [sorted] puts the keys in. *)
Lemma insert_keyed_perm (reverse : bool) kx l : insert_keyed reverse kx l ≡ₚ kx :: l.
Proof.
  induction l as [|ky l IH]; [done|]. simpl.
  destruct (if reverse then ky.1 <=? kx.1 else kx.1 <=? ky.1); [done|].
  rewrite IH. apply Permutation_swap.
Qed.

Lemma sort_keyed_perm (reverse : bool) l : sort_keyed reverse l ≡ₚ l.
Proof.
  unfold sort_keyed. induction l as [|kx l IH]; [done|].
  cbn [foldr]. by rewrite insert_keyed_perm, IH.
Qed.

Lemma insert_keyed_sorted (reverse : bool) kx l :
  StronglySorted (fun a b : Z * A => if reverse then b.1 <= a.1 else a.1 <= b.1) l ->
  StronglySorted (fun a b : Z * A => if reverse then b.1 <= a.1 else a.1 <= b.1)
                 (insert_keyed reverse kx l).
Proof.
  induction 1 as [|ky l Hl IH Hky]; simpl; [by repeat constructor|].
  destruct (if reverse then ky.1 <=? kx.1 else kx.1 <=? ky.1) eqn:Htest.
  - constructor; [by constructor|]. constructor.
    + destruct reverse; lia.
    + eapply Forall_impl; [exact Hky|]. intros kz Hkz. simpl in *.
      destruct reverse; lia.
  - constructor; [done|]. rewrite insert_keyed_perm. constructor; [|done].
    destruct reverse; lia.
Qed.

Lemma sort_keyed_sorted (reverse : bool) l :
  StronglySorted (fun a b : Z * A => if reverse then b.1 <= a.1 else a.1 <= b.1)
                 (sort_keyed reverse l).
Proof.
  unfold sort_keyed. induction l as [|kx l IH]; [constructor|].
  cbn [foldr]. by apply insert_keyed_sorted.
Qed.

Lemma mapM_keys (key : A -> result Z) (f : A -> Z) (l : list A) :
  Forall (fun x => key x = Ok (f x)) l ->
  mapM (fun x => k ← key x; Ok (k, x)) l = Ok ((fun x => (f x, x)) <$> l).
Proof.
  induction 1 as [|x l Hx _ IH]; [done|].
  by rewrite mapM_cons, Hx, IH.
Qed.

(** [sorted] on a list whose keys are all computed: a permutation of the
    list, in the order of the keys. *)
Lemma sorted_Ok (key : A -> result Z) (f : A -> Z) (reverse : bool) (l : list A) :
  Forall (fun x => key x = Ok (f x)) l ->
  exists k, sorted key reverse l = Ok k
    /\ k ≡ₚ l
    /\ StronglySorted (fun a b => if reverse then f b <= f a else f a <= f b) k.
Proof.
  intros Hkeys. unfold sorted. rewrite (mapM_keys key f l Hkeys). simpl.
  eexists. split; [reflexivity|].
  pose proof (sort_keyed_perm reverse ((fun x => (f x, x)) <$> l)) as Hperm.
  pose proof (sort_keyed_sorted reverse ((fun x => (f x, x)) <$> l)) as Hsorted.
  assert (Hpairs : Forall (fun kx : Z * A => kx.1 = f kx.2)
                     (sort_keyed reverse ((fun x => (f x, x)) <$> l))).
  { rewrite Hperm. apply Forall_fmap. by apply Forall_true. }
  split.
  - rewrite Hperm, <- list_fmap_compose. by rewrite list_fmap_id.
  - revert Hsorted Hpairs. generalize (sort_keyed reverse ((fun x => (f x, x)) <$> l)).
    intros s. induction 1 as [|kx s Hs IH Hkx]; intros Hpairs; [constructor|].
    apply Forall_cons in Hpairs as [Hk Hpairs]. rewrite fmap_cons. constructor; [by apply IH|].
    apply Forall_fmap. rewrite Forall_forall in *. intros ky Hin. simpl.
    specialize (Hkx ky Hin). specialize (Hpairs ky Hin). simpl in *.
    rewrite <- Hk, <- Hpairs. done.
Qed.

End SortFacts.

Lemma filterM_Ok {A : Type} (p : A -> result bool) (l : list A) :
  Forall (fun x => exists c, p x = Ok c) l ->
  exists k, filterM p l = Ok k /\ (forall x, x ∈ k -> x ∈ l).
Proof.
  induction 1 as [|x l [c Hc] _ (k & Hk & Hsub)]; [by exists []|].
  simpl. rewrite Hc, Hk. simpl. destruct c; eexists; (split; [reflexivity|]).
  - intros y Hy. apply elem_of_cons in Hy as [->|Hy];
      [apply list_elem_of_here|apply list_elem_of_further; auto].
  - intros y Hy. apply list_elem_of_further. auto.
Qed.

Lemma filterM_split {A : Type} (p q : A -> result bool) (l k1 k2 : list A) :
  filterM p l = Ok k1 -> filterM q l = Ok k2 ->
  (forall x c1 c2, p x = Ok c1 -> q x = Ok c2 -> c2 = negb c1) ->
  (length k1 + length k2 = length l)%nat.
Proof.
  intros Hp Hq Hpq. revert k1 k2 Hp Hq. induction l as [|x l IH]; intros k1 k2.
  - by intros [= <-] [= <-].
  - simpl. destruct (p x) as [c1|] eqn:Hc1; simpl; [|done].
    destruct (q x) as [c2|] eqn:Hc2; simpl; [|by destruct (filterM p l)].
    destruct (filterM p l) as [k1'|]; simpl; [|done].
    destruct (filterM q l) as [k2'|]; simpl; [|done].
    intros [= <-] [= <-]. specialize (IH k1' k2' eq_refl eq_refl).
    rewrite (Hpq x c1 c2 Hc1 Hc2). destruct c1; simpl; lia.
Qed.

(** ** The plain-text report *)

Lemma entity_accessors_Ok (e : Entity.t) :
  sound_entity e ->
  exists r, Entity.last_run e = Ok r.
Proof.
  intros [Hne _]. destruct (last_run_sound e Hne) as (rs & r & _ & Hlast). eauto.
Qed.

Lemma all_entities_sound (st : state) : sound st -> Forall sound_entity (all_entities st).
Proof. by intros [H _]. Qed.

Lemma bind_Ok {A B : Type} (a : A) (k : A -> result B) : Ok a ≫= k = k a.
Proof. reflexivity. Qed.

Lemma text_with_init (st : state) (e : Init.t) :
  sound st -> init st = Some e -> initcalls st <> [] -> exists t, text st = Ok t.
Proof.
  intros Hs Hinit Hne.
  pose proof (all_entities_sound st Hs) as Hall.
  pose proof Hs as Hs'. apply sound_split in Hs' as (Hi & Hp & He).
  rewrite Hinit in He. simpl in He.
  destruct (last_start_time_Ok e He) as [s Hstart].
  destruct (boot_end_Ok st Hs Hne) as [total Htotal].
  unfold text. rewrite Hinit, Htotal. simpl init_last_start_time. rewrite Hstart.
  destruct (filterM_Ok
              (fun d : Initcall.t =>
                 a ← Entity.last_start_time (Initcall.entity d); b ← Ok s; Ok (a <=? b))
              (PyDict.values (initcalls st))) as (before & -> & _).
  { eapply Forall_impl; [exact Hi|]. intros i Hsi.
    destruct (last_start_time_Ok _ Hsi) as [a ->]. by eexists. }
  destruct (filterM_Ok
              (fun d : Initcall.t =>
                 a ← Entity.last_start_time (Initcall.entity d); b ← Ok s; Ok (b <? a))
              (PyDict.values (initcalls st))) as (after & -> & _).
  { eapply Forall_impl; [exact Hi|]. intros i Hsi.
    destruct (last_start_time_Ok _ Hsi) as [a ->]. by eexists. }
  destruct (filterM_Ok Probe.deferred_probe_pending (PyDict.values (probes st)))
    as (pending & -> & _).
  { eapply Forall_impl; [exact Hp|]. intros p Hsp.
    destruct (entity_accessors_Ok p Hsp) as [r Hr].
    unfold Probe.deferred_probe_pending. rewrite Hr. by eexists. }
  destruct (filterM_Ok Entity.failed (all_entities st)) as (failures & Hfail & Hsub).
  { eapply Forall_impl; [exact Hall|]. intros p Hsp.
    destruct (entity_accessors_Ok p Hsp) as [r Hr].
    unfold Entity.failed. rewrite Hr. by eexists. }
  rewrite Hfail.
  destruct (sorted_Ok (fun k : Initcall.t => Ok (Entity.duration (Initcall.entity k)))
              (fun k => Entity.duration (Initcall.entity k)) true
              (PyDict.values (initcalls st))) as (top_i & -> & _).
  { by apply Forall_true. }
  destruct (sorted_Ok (fun k : Probe.t => Ok (Entity.duration k)) Entity.duration true
              (PyDict.values (probes st))) as (top_p & -> & _).
  { by apply Forall_true. }
  repeat (rewrite bind_Ok; cbv beta).
  destruct (mapM_Ok (fun d => rv ← Entity.retval d; Ok (Entity.name d, Z.abs rv)) failures)
    as (failed_list & -> & _).
  { rewrite Forall_forall in *. intros d Hd. specialize (Hall d (Hsub d Hd)).
    destruct (entity_accessors_Ok d Hall) as [r Hr].
    unfold Entity.retval. rewrite Hr. by eexists. }
  by eexists.
Qed.

Lemma html_with_init (b : bool) (st : state) (e : Init.t) :
  sound st -> init st = Some e -> initcalls st <> [] -> exists h, html b st = Ok h.
Proof.
  intros Hs Hinit Hne.
  pose proof Hs as Hs'. apply sound_split in Hs' as (Hi & Hp & He).
  rewrite Hinit in He. simpl in He.
  destruct (last_start_time_Ok e He) as [s Hstart].
  destruct (boot_end_Ok st Hs Hne) as [total Htotal].
  unfold html, html_identification, html_init_marker, after_init.
  rewrite Hinit, Htotal. simpl init_last_start_time. rewrite Hstart.
  repeat (rewrite bind_Ok; cbv beta).
  assert (Hslots : exists out,
            (if (0 <? length (probes st))%nat
             then plot_probes (lanes_bound (probes st)) (probes st)
             else Ok (Some (∅, []))) = Ok out).
  { destruct (0 <? length (probes st))%nat; [|by eexists].
    destruct (plot_probes_total (probes st) Hp) as [out ->]. by eexists. }
  destruct Hslots as [out ->]. rewrite bind_Ok. cbv beta.
  assert (Hmarker : exists mk,
            (if b then Ok None else Ok (Some (s `div` 100))) = Ok mk :> result (option Z)).
  { destruct b; by eexists. }
  destruct Hmarker as [mk ->]. rewrite bind_Ok. cbv beta.
  destruct (0 <? length (probes st))%nat; [|by eexists].
  destruct (sorted_Ok (fun k : Probe.t => Ok (Entity.duration k)) Entity.duration true
              (PyDict.values (probes st))) as (ds & -> & Hperm & _).
  { by apply Forall_true. }
  rewrite bind_Ok. cbv beta.
  destruct (mapM_Ok (fun d : Probe.t =>
                       c ← (a ← Entity.last_start_time d; b0 ← Ok s; Ok (b0 <? a));
                       Ok (Entity.name d, c)) ds) as (rows & -> & _).
  { rewrite Hperm. eapply Forall_impl; [exact Hp|]. intros p Hsp.
    destruct (last_start_time_Ok _ Hsp) as [a ->]. by eexists. }
  by eexists.
Qed.

(** ** How the script ends *)

Lemma get_all_None {V : Type} (d : PyDict.t V) :
  (forall k, PyDict.get d k = None) -> d = [].
Proof.
  destruct d as [|[k v] d]; [done|]. intros H. specialize (H k).
  simpl in H. by rewrite String.eqb_refl in H.
Qed.

Lemma existsb_false_Forall {A : Type} (f : A -> bool) (l : list A) :
  existsb f l = false <-> Forall (fun x => f x = false) l.
Proof.
  induction l as [|x l IH]; simpl; [by split; [constructor|]|].
  rewrite orb_false_iff, Forall_cons, IH. done.
Qed.

Lemma first_call_split (feed : list event) :
  existsb is_CallStarted feed = true ->
  exists pre name time module post,
    feed = pre ++ CallStarted name time module :: post
    /\ Forall (fun ev => is_CallStarted ev = false) pre.
Proof.
  induction feed as [|ev feed IH]; [done|].
  destruct (is_CallStarted ev) eqn:Hev.
  - intros _. destruct ev; try done. by exists [], name, time, module, feed.
  - simpl. rewrite Hev. simpl. intros H.
    destruct (IH H) as (pre & name & time & module & post & -> & Hpre).
    exists (ev :: pre), name, time, module, post. split; [done|]. by constructor.
Qed.

Lemma not_call_calls (name : string) (ev : event) :
  is_CallStarted ev = false -> calls name ev = false.
Proof. by destruct ev. Qed.

Lemma scan_no_initcalls (randint : nat -> Z) (b : bool) (feed : list event) :
  existsb is_CallStarted (ingested b feed) = false -> initcalls (scan randint b feed) = [].
Proof.
  intros H. apply existsb_false_Forall in H. rewrite scan_ingested.
  apply get_all_None. intros k. apply ingest_no_call; [|done].
  eapply Forall_impl; [exact H|]. intros ev. apply not_call_calls.
Qed.

Lemma scan_has_initcalls (randint : nat -> Z) (b : bool) (feed : list event) :
  existsb is_CallStarted (ingested b feed) = true -> initcalls (scan randint b feed) <> [].
Proof.
  intros H. rewrite scan_ingested.
  destruct (first_call_split _ H) as (pre & name & time & module & post & -> & Hpre).
  destruct (scan_first_call randint pre post name time module) as (i & Hget & _).
  { eapply Forall_impl; [exact Hpre|]. intros ev. apply not_call_calls. }
  intros Hnil. by rewrite Hnil in Hget.
Qed.

Lemma scan_init_None (randint : nat -> Z) (b : bool) (feed : list event) :
  existsb is_InitStarted (ingested b feed) = false -> init (scan randint b feed) = None.
Proof.
  intros H. apply existsb_false_Forall in H. rewrite scan_ingested.
  apply (ingest_init_kept randint false initial _ H).
Qed.

Lemma scan_init_Some (randint : nat -> Z) (b : bool) (feed : list event) :
  existsb is_InitStarted (ingested b feed) = true ->
  exists e, init (scan randint b feed) = Some e.
Proof.
  intros H. rewrite scan_ingested.
  destruct (first_init_split _ H) as (pre & name & time & post & Hfeed & Hpre & _).
  rewrite Hfeed. unfold scan. rewrite ingest_app by done.
  pose proof (ingest_init_kept randint false initial pre Hpre) as Hnone.
  rewrite ingest_cons_false. simpl in *. rewrite Hnone. simpl.
  set (st1 := set_init _ _).
  destruct (ingest_grows randint false post st1) as (_ & _ & _ & _ & Hinit).
  eexists. by apply Hinit.
Qed.

Lemma length_eqb_false {A : Type} (l : list A) : l <> [] -> (length l =? 0)%nat = false.
Proof. by destruct l. Qed.

Lemma main_cases (randint : nat -> Z) (html_flag b : bool) (feed : list event) :
  main randint html_flag b feed
  = if existsb is_CallStarted (ingested b feed)
    then if existsb is_InitStarted (ingested b feed)
         then main randint html_flag b feed
         else Raise AttributeError
    else Raise (SystemExit 1).
Proof.
  destruct (existsb is_CallStarted (ingested b feed)) eqn:Hcall.
  - destruct (existsb is_InitStarted (ingested b feed)) eqn:Hinit; [done|].
    pose proof (scan_has_initcalls randint b feed Hcall) as Hne.
    pose proof (scan_init_None randint b feed Hinit) as Hnone.
    pose proof (scan_sound randint b feed) as Hs.
    unfold main. rewrite (length_eqb_false _ Hne).
    destruct html_flag.
    + by rewrite html_without_init.
    + by rewrite text_without_init.
  - unfold main. by rewrite (scan_no_initcalls randint b feed Hcall).
Qed.

(** X10: the script exits with status 1 exactly when the part of the feed
    that is read holds no call, whatever else it holds: returns without a
    call and probes do not count, and in before-init mode neither do the
    calls that follow the first init line. *)
Theorem exit_iff_no_call (randint : nat -> Z) (html_flag b : bool) (feed : list event) :
  main randint html_flag b feed = Raise (SystemExit 1)
  <-> existsb is_CallStarted (ingested b feed) = false.
Proof.
  split.
  - intros Hmain. destruct (existsb is_CallStarted (ingested b feed)) eqn:Hcall; [|done].
    exfalso. rewrite main_cases, Hcall in Hmain.
    destruct (existsb is_InitStarted (ingested b feed)) eqn:Hinit; [|done].
    pose proof (scan_has_initcalls randint b feed Hcall) as Hne.
    destruct (scan_init_Some randint b feed Hinit) as [e He].
    pose proof (scan_sound randint b feed) as Hs.
    unfold main in Hmain. rewrite (length_eqb_false _ Hne) in Hmain.
    destruct html_flag.
    + destruct (html_with_init b _ e Hs He Hne) as [h Hh]. by rewrite Hh in Hmain.
    + destruct (text_with_init _ e Hs He Hne) as [t Ht]. by rewrite Ht in Hmain.
  - intros Hcall. by rewrite main_cases, Hcall.
Qed.

(** X11: how the plain-text run ends is decided by two questions about the
    part of the feed that is read.  Without a call the script exits with
    status 1; with a call but without an init line it stops on an
    AttributeError; with both it prints the report.  Nothing else can
    happen. *)
Theorem text_run_outcome (randint : nat -> Z) (b : bool) (feed : list event) :
  match main randint false b feed with
  | Ok (Text _) =>
      existsb is_CallStarted (ingested b feed) = true
      /\ existsb is_InitStarted (ingested b feed) = true
  | Ok (Html _) => False
  | Raise AttributeError =>
      existsb is_CallStarted (ingested b feed) = true
      /\ existsb is_InitStarted (ingested b feed) = false
  | Raise (SystemExit code) =>
      code = 1 /\ existsb is_CallStarted (ingested b feed) = false
  | Raise _ => False
  end.
Proof.
  rewrite main_cases.
  destruct (existsb is_CallStarted (ingested b feed)) eqn:Hcall; [|done].
  destruct (existsb is_InitStarted (ingested b feed)) eqn:Hinit; [|done].
  pose proof (scan_has_initcalls randint b feed Hcall) as Hne.
  destruct (scan_init_Some randint b feed Hinit) as [e He].
  pose proof (scan_sound randint b feed) as Hs.
  unfold main. rewrite (length_eqb_false _ Hne).
  destruct (text_with_init _ e Hs He Hne) as [t ->]. done.
Qed.

(** ** The figures of the plain-text report *)

Lemma mapM_length {A B : Type} (f : A -> result B) (l : list A) (k : list B) :
  mapM f l = Ok k -> length k = length l.
Proof.
  revert k. induction l as [|x l IH]; intros k; [by intros [= <-]|].
  rewrite mapM_cons. destruct (f x) as [y|]; simpl; [|done].
  destruct (mapM f l) as [k'|]; simpl; [|done].
  intros [= <-]. simpl. by rewrite (IH k').
Qed.

Lemma filterM_length {A : Type} (p : A -> result bool) (l k : list A) :
  filterM p l = Ok k -> (length k <= length l)%nat.
Proof.
  revert k. induction l as [|x l IH]; intros k; [by intros [= <-]|].
  simpl. destruct (p x) as [c|]; simpl; [|done].
  destruct (filterM p l) as [k'|]; simpl; [|done].
  intros [= <-]. specialize (IH k' eq_refl). destruct c; simpl; lia.
Qed.

(** One step back through a bind that gave a result. *)
Ltac bind_inv H :=
  first
    [ rewrite bind_Ok in H; cbv beta in H
    | match type of H with
      | ?m ≫= _ = Ok _ =>
          let E := fresh "E" in
          destruct m eqn:E; [rewrite bind_Ok in H; cbv beta in H|by simpl in H]
      end ].

(** What a report that was printed was computed from. *)
Lemma text_inv (st : state) (t : text_report) :
  text st = Ok t ->
  exists before after pending failures top_i top_p failed_list,
    filterM (fun d : Initcall.t =>
               a ← Entity.last_start_time (Initcall.entity d);
               b ← init_last_start_time (init st);
               Ok (a <=? b)) (PyDict.values (initcalls st)) = Ok before
    /\ filterM (fun d : Initcall.t =>
                  a ← Entity.last_start_time (Initcall.entity d);
                  b ← init_last_start_time (init st);
                  Ok (b <? a)) (PyDict.values (initcalls st)) = Ok after
    /\ filterM Probe.deferred_probe_pending (PyDict.values (probes st)) = Ok pending
    /\ filterM Entity.failed (all_entities st) = Ok failures
    /\ sorted (fun k => Ok (Entity.duration (Initcall.entity k))) true
              (PyDict.values (initcalls st)) = Ok top_i
    /\ sorted (fun k => Ok (Entity.duration k)) true (PyDict.values (probes st)) = Ok top_p
    /\ mapM (fun d => rv ← Entity.retval d; Ok (Entity.name d, Z.abs rv)) failures
       = Ok failed_list
    /\ t_initcalls t = length (initcalls st)
    /\ t_before_userspace t = length before
    /\ t_after_userspace t = length after
    /\ t_deferred_probe_pending t = length pending
    /\ t_failed t = length failures
    /\ t_top_initcalls t
       = (fun d => (Entity.name (Initcall.entity d), Entity.duration (Initcall.entity d)))
           <$> take 10 top_i
    /\ t_top_probes t = (fun d => (Entity.name d, Entity.duration d)) <$> take 10 top_p
    /\ t_failed_list t = failed_list.
Proof.
  unfold text. intros H.
  do 10 bind_inv H. injection H as <-.
  repeat eexists; try eassumption; reflexivity.
Qed.

(** X12: the counts of the plain-text summary add up.  Every initcall is
    counted either before or after user space, never in both and never in
    neither; the number of failed entities is the number of lines of the
    list of failures; there are no more pending deferrals than probes and
    no more failures than entities. *)
Theorem summary_counts_add_up (st : state) (t : text_report) :
  text st = Ok t ->
  (t_before_userspace t + t_after_userspace t = t_initcalls t)%nat
  /\ t_initcalls t = length (initcalls st)
  /\ t_failed t = length (t_failed_list t)
  /\ (t_deferred_probe_pending t <= length (probes st))%nat
  /\ (t_failed t <= length (initcalls st) + length (probes st))%nat.
Proof.
  intros H. apply text_inv in H
    as (before & after & pending & failures & top_i & top_p & failed_list
        & Hb & Ha & Hp & Hf & _ & _ & Hl & -> & -> & -> & -> & -> & _ & _ & ->).
  split_and!; try done.
  - rewrite (filterM_split _ _ _ _ _ Hb Ha).
    + unfold PyDict.values. by rewrite length_fmap.
    + intros d c1 c2.
      destruct (Entity.last_start_time (Initcall.entity d)) as [a|]; simpl; [|done].
      destruct (init_last_start_time (init st)) as [s|]; simpl; [|done].
      intros [= <-] [= <-]. apply Z.ltb_antisym.
  - symmetry. by apply mapM_length in Hl.
  - apply filterM_length in Hp. unfold PyDict.values in Hp. by rewrite length_fmap in Hp.
  - apply filterM_length in Hf. unfold all_entities, PyDict.values in Hf.
    by rewrite length_app, !length_fmap in Hf.
Qed.

Lemma summary_counts_add_up_witness :
  exists t,
    text (scan (fun _ => 0) false
            [CallStarted "a" 10 ""; CallReturned "a" 15 0 5; InitStarted "/init" 20;
             CallStarted "b" 30 ""; CallReturned "b" 40 (-22) 10;
             ProbeReturned "p" 50 517 3]) = Ok t
    /\ (t_before_userspace t + t_after_userspace t = t_initcalls t)%nat
    /\ t_initcalls t = 2%nat
    /\ t_failed t = length (t_failed_list t)
    /\ (t_deferred_probe_pending t <= 1)%nat
    /\ (t_failed t <= 2 + 1)%nat.
Proof.
  eexists. split; [reflexivity|].
  exact (summary_counts_add_up
           (scan (fun _ => 0) false
              [CallStarted "a" 10 ""; CallReturned "a" 15 0 5; InitStarted "/init" 20;
               CallStarted "b" 30 ""; CallReturned "b" 40 (-22) 10;
               ProbeReturned "p" 50 517 3]) _ eq_refl).
Defined.

Lemma top_of_sorted {A : Type} (f : A -> Z) (n : nat) (L vals : list A) :
  L ≡ₚ vals ->
  StronglySorted (fun a b => f b <= f a) L ->
  length (take n L) = min n (length vals)
  /\ StronglySorted (fun a b => f b <= f a) (take n L)
  /\ (forall x, x ∈ take n L -> x ∈ vals)
  /\ (forall x, x ∈ vals -> x ∈ take n L \/ Forall (fun y => f x <= f y) (take n L)).
Proof.
  intros Hperm Hsorted. rewrite <- (take_drop n L) in Hsorted. split_and!.
  - by rewrite length_take, Hperm.
  - by apply StronglySorted_app_1_l in Hsorted.
  - intros x Hx. rewrite <- Hperm, <- (take_drop n L). apply elem_of_app. by left.
  - intros x Hx. rewrite <- Hperm, <- (take_drop n L) in Hx.
    apply elem_of_app in Hx as [Hx|Hx]; [by left|right].
    apply Forall_forall. intros y Hy.
    exact (StronglySorted_app_1_elem_of _ _ _ y x Hsorted Hy Hx).
Qed.

(** X13: the two top-ten lists hold what their titles say.  Each has ten
    entries, or all the entities when there are fewer; its entries are
    entities of the dictionary with their total durations, in order of
    decreasing duration; and an entity that is not listed has a duration
    that is at most that of every listed one. *)
Theorem top_ten_are_the_longest (st : state) (t : text_report) :
  text st = Ok t ->
  (length (t_top_initcalls t) = min 10 (length (initcalls st))
   /\ StronglySorted (fun a b : string * Z => b.2 <= a.2) (t_top_initcalls t)
   /\ Forall (fun e : string * Z =>
                exists i, i ∈ PyDict.values (initcalls st)
                  /\ e = (Entity.name (Initcall.entity i), Entity.duration (Initcall.entity i)))
             (t_top_initcalls t)
   /\ (forall i, i ∈ PyDict.values (initcalls st) ->
         (Entity.name (Initcall.entity i), Entity.duration (Initcall.entity i))
           ∈ t_top_initcalls t
         \/ Forall (fun e : string * Z => Entity.duration (Initcall.entity i) <= e.2)
                   (t_top_initcalls t)))
  /\ (length (t_top_probes t) = min 10 (length (probes st))
      /\ StronglySorted (fun a b : string * Z => b.2 <= a.2) (t_top_probes t)
      /\ Forall (fun e : string * Z =>
                   exists p, p ∈ PyDict.values (probes st)
                     /\ e = (Entity.name p, Entity.duration p))
                (t_top_probes t)
      /\ (forall p, p ∈ PyDict.values (probes st) ->
            (Entity.name p, Entity.duration p) ∈ t_top_probes t
            \/ Forall (fun e : string * Z => Entity.duration p <= e.2) (t_top_probes t))).
Proof.
  intros H. apply text_inv in H
    as (before & after & pending & failures & top_i & top_p & failed_list
        & _ & _ & _ & _ & Hi & Hp & _ & _ & _ & _ & _ & _ & -> & -> & _).
  split.
  - destruct (sorted_Ok (fun k : Initcall.t => Ok (Entity.duration (Initcall.entity k)))
                (fun k => Entity.duration (Initcall.entity k)) true
                (PyDict.values (initcalls st))) as (k & Hk & Hperm & Hsorted);
      [by apply Forall_true|].
    rewrite Hi in Hk. injection Hk as <-.
    destruct (top_of_sorted (fun k => Entity.duration (Initcall.entity k)) 10 top_i
                (PyDict.values (initcalls st)) Hperm Hsorted) as (Hlen & Hs & Hin & Htop).
    split_and!.
    + rewrite length_fmap, Hlen. unfold PyDict.values. by rewrite length_fmap.
    + eapply StronglySorted_fmap; [|exact Hs]. done.
    + apply Forall_fmap, Forall_forall. intros i Hi'. exists i. split; [by apply Hin|done].
    + intros i Hi'. destruct (Htop i Hi') as [Hl|Hr].
      * left. apply list_elem_of_fmap. by exists i.
      * right. by apply Forall_fmap.
  - destruct (sorted_Ok (fun k : Probe.t => Ok (Entity.duration k)) Entity.duration true
                (PyDict.values (probes st))) as (k & Hk & Hperm & Hsorted);
      [by apply Forall_true|].
    rewrite Hp in Hk. injection Hk as <-.
    destruct (top_of_sorted Entity.duration 10 top_p
                (PyDict.values (probes st)) Hperm Hsorted) as (Hlen & Hs & Hin & Htop).
    split_and!.
    + rewrite length_fmap, Hlen. unfold PyDict.values. by rewrite length_fmap.
    + eapply StronglySorted_fmap; [|exact Hs]. done.
    + apply Forall_fmap, Forall_forall. intros p Hp'. exists p. split; [by apply Hin|done].
    + intros p Hp'. destruct (Htop p Hp') as [Hl|Hr].
      * left. apply list_elem_of_fmap. by exists p.
      * right. by apply Forall_fmap.
Qed.

Lemma top_ten_are_the_longest_witness :
  exists t,
    text (scan (fun _ => 0) false
            [CallStarted "a" 10 ""; CallReturned "a" 15 0 5; InitStarted "/init" 20;
             CallStarted "b" 30 ""; CallReturned "b" 40 0 10]) = Ok t
    /\ t_top_initcalls t = [("b"%string, 10); ("a"%string, 5)]
    /\ StronglySorted (fun a b : string * Z => b.2 <= a.2) (t_top_initcalls t).
Proof.
  eexists. split; [reflexivity|]. split; [reflexivity|].
  exact (proj1 (proj2 (proj1 (top_ten_are_the_longest
           (scan (fun _ => 0) false
              [CallStarted "a" 10 ""; CallReturned "a" 15 0 5; InitStarted "/init" 20;
               CallStarted "b" 30 ""; CallReturned "b" 40 0 10]) _ eq_refl)))).
Defined.

(** ** The duration of an initcall *)

Lemma open_init (name : string) (c : Z * Z * Z) (s : Z) :
  open_runs_empty (Entity.init name c s 0 0 0).
Proof. unfold open_runs_empty. simpl. repeat constructor; simpl; lia. Qed.

Lemma open_addStart (e : Entity.t) (t : Z) :
  open_runs_empty e -> open_runs_empty (Entity.addStart e t).
Proof.
  unfold open_runs_empty. simpl. intros H. apply Forall_app. split; [done|].
  by repeat constructor.
Qed.

Lemma addEnd_duration (e e' : Entity.t) (t d rv : Z) :
  open_runs_empty e -> 0 <= t -> Entity.addEnd e t d rv = Ok e' ->
  open_runs_empty e' /\ Entity.duration e' = Entity.duration e + d.
Proof.
  unfold open_runs_empty, Entity.addEnd, Entity.last_run, Entity.duration.
  intros Hopen Ht.
  destruct (last (Entity.runs e)) as [r|] eqn:Hlast; simpl; [|done].
  apply last_Some in Hlast as [rs Hruns]. rewrite Hruns in *.
  pose proof Hopen as Hall.
  apply Forall_app in Hopen as [Hrs Hr]. rewrite Forall_singleton in Hr.
  destruct (0 <=? Run.end_time r) eqn:Hend; intros [= <-]; simpl.
  - split.
    + apply Forall_app. split; [exact Hall|]. repeat constructor; simpl; lia.
    + rewrite !fmap_app, !sum_app. simpl. unfold sum. simpl. lia.
  - apply Z.leb_gt in Hend. rewrite insert_last. split.
    + apply Forall_app. split; [done|]. repeat constructor; simpl; lia.
    + rewrite !fmap_app, !sum_app. unfold sum. simpl. rewrite (Hr Hend). lia.
Qed.

Lemma matched_returns_step (name : string) (known : bool) (ev : event) (feed : list event) :
  matched_returns name known (ev :: feed)
  = matched_returns name known [ev]
    ++ matched_returns name (known || calls name ev) feed.
Proof.
  destruct ev as [text|text|text|n t m|n t rv d|n t rv d|n t]; simpl;
    rewrite ?orb_false_r; try done.
  by destruct (known && String.eqb n name).
Qed.

Lemma step_initcall_duration (randint : nat -> Z) (b : bool) (st : state) (ev : event)
    (name : string) :
  sound st ->
  Forall (fun i => open_runs_empty (Initcall.entity i)) (PyDict.values (initcalls st)) ->
  let known := bool_decide (is_Some (PyDict.get (initcalls st) name)) in
  let st' := (step randint b st ev).1 in
  Forall (fun i => open_runs_empty (Initcall.entity i)) (PyDict.values (initcalls st'))
  /\ bool_decide (is_Some (PyDict.get (initcalls st') name)) = known || calls name ev
  /\ from_option (fun i => Entity.duration (Initcall.entity i)) 0
       (PyDict.get (initcalls st') name)
     = from_option (fun i => Entity.duration (Initcall.entity i)) 0
         (PyDict.get (initcalls st) name)
       + sum ((fun x : N * Z * N => Z.of_N x.2) <$> matched_returns name known [ev]).
Proof.
  intros Hs Hopen. apply sound_split in Hs as (Hi & _ & _). simpl.
  destruct ev as [text|text|text|n t m|n t rv d|n t rv d|n t]; simpl;
    rewrite ?orb_false_r, ?Z.add_0_r; try done.
  - destruct (PyDict.get (initcalls st) n) as [i|] eqn:Hget; simpl.
    + split; [|split].
      * apply Forall_values_set; [done|]. simpl. apply open_addStart.
        exact (get_sound (fun i => open_runs_empty (Initcall.entity i)) _ _ _ Hopen Hget).
      * destruct (String.eqb_spec n name) as [->|Hne].
        -- rewrite get_set_eq, orb_true_r. by apply bool_decide_eq_true.
        -- by rewrite get_set_ne, orb_false_r.
      * destruct (String.eqb_spec n name) as [->|Hne].
        -- rewrite get_set_eq, Hget. simpl. unfold Entity.duration. simpl.
           rewrite fmap_app, sum_app. unfold sum. simpl. lia.
        -- by rewrite get_set_ne.
    + split; [|split].
      * apply Forall_values_set; [done|]. simpl. apply open_init.
      * destruct (String.eqb_spec n name) as [->|Hne].
        -- rewrite get_set_eq, orb_true_r. by apply bool_decide_eq_true.
        -- by rewrite get_set_ne, orb_false_r.
      * destruct (String.eqb_spec n name) as [->|Hne].
        -- by rewrite get_set_eq, Hget.
        -- by rewrite get_set_ne.
  - destruct (PyDict.get (initcalls st) n) as [i|] eqn:Hget; simpl.
    + pose proof (get_sound (fun i => sound_entity (Initcall.entity i)) _ _ _ Hi Hget) as Hsi.
      pose proof (get_sound (fun i => open_runs_empty (Initcall.entity i)) _ _ _ Hopen Hget)
        as Hoi.
      destruct (last_run_sound _ (proj1 Hsi)) as (rs & r & Hruns & Hlast).
      unfold Initcall.addEnd.
      destruct (Entity.addEnd (Initcall.entity i) (Z.of_N t) (Z.of_N d) rv) as [e'|x] eqn:Hend.
      2:{ unfold Entity.addEnd in Hend. rewrite Hlast in Hend. simpl in Hend.
          by destruct (0 <=? Run.end_time r). }
      simpl. destruct (addEnd_duration _ _ _ _ _ Hoi (N2Z.is_nonneg t) Hend) as [Hoe Hde].
      split; [|split].
      * by apply Forall_values_set.
      * destruct (String.eqb_spec n name) as [->|Hne].
        -- rewrite get_set_eq, Hget. by rewrite ?bool_decide_eq_true_2.
        -- by rewrite get_set_ne.
      * destruct (String.eqb_spec n name) as [->|Hne].
        -- rewrite get_set_eq, Hget. simpl. rewrite ?bool_decide_eq_true_2 by done.
           simpl. unfold sum. simpl. lia.
        -- rewrite get_set_ne by done. rewrite andb_false_r. simpl. unfold sum. simpl. lia.
    + split; [done|]. split; [done|].
      destruct (String.eqb_spec n name) as [->|Hne].
      * rewrite Hget. rewrite ?bool_decide_eq_false_2 by (by intros [? ?]).
        simpl. unfold sum. simpl. lia.
      * rewrite andb_false_r. unfold sum. simpl. lia.
  - by repeat case_match.
  - by repeat case_match.
Qed.

Lemma ingest_initcall_duration (randint : nat -> Z) (feed : list event) (st : state)
    (name : string) :
  sound st ->
  Forall (fun i => open_runs_empty (Initcall.entity i)) (PyDict.values (initcalls st)) ->
  bool_decide (is_Some (PyDict.get (initcalls (ingest randint false st feed)) name))
  = bool_decide (is_Some (PyDict.get (initcalls st) name)) || existsb (calls name) feed
  /\ from_option (fun i => Entity.duration (Initcall.entity i)) 0
       (PyDict.get (initcalls (ingest randint false st feed)) name)
     = from_option (fun i => Entity.duration (Initcall.entity i)) 0
         (PyDict.get (initcalls st) name)
       + sum ((fun x : N * Z * N => Z.of_N x.2)
                <$> matched_returns name
                      (bool_decide (is_Some (PyDict.get (initcalls st) name))) feed).
Proof.
  revert st. induction feed as [|ev feed IH]; intros st Hs Hopen.
  - rewrite orb_false_r. unfold sum. simpl. split; [done|lia].
  - rewrite ingest_cons_false, matched_returns_step, fmap_app, sum_app.
    destruct (step_initcall_duration randint false st ev name Hs Hopen) as (Hopen' & Hk & Hd).
    destruct (IH _ (step_sound randint false st ev Hs) Hopen') as [IHk IHd].
    rewrite IHk, IHd, Hk, Hd. split; [|lia].
    simpl. by rewrite orb_assoc.
Qed.

(** X4: the duration of an initcall is the sum of the durations of its
    returns, counting the returns of the part of the feed that is read
    that come after a call of the same name; returns that come before any
    call are dropped and add nothing.  The initcall is in the dictionary
    exactly when that part of the feed holds a call of its name. *)
Theorem initcall_duration_is_sum (randint : nat -> Z) (b : bool) (feed : list event)
    (name : string) :
  match PyDict.get (initcalls (scan randint b feed)) name with
  | None => existsb (calls name) (ingested b feed) = false
  | Some i =>
      existsb (calls name) (ingested b feed) = true
      /\ Entity.duration (Initcall.entity i)
         = sum ((fun x : N * Z * N => Z.of_N x.2)
                  <$> matched_returns name false (ingested b feed))
  end.
Proof.
  rewrite scan_ingested. unfold scan.
  destruct (ingest_initcall_duration randint (ingested b feed) initial name) as [Hk Hd].
  { split; [constructor|done]. }
  { constructor. }
  simpl in Hk, Hd.
  destruct (PyDict.get (initcalls (ingest randint false initial (ingested b feed))) name)
    as [i|]; simpl in *.
  - split; [done|lia].
  - done.
Qed.

(** ** Lanes and the peak of parallel probes *)

Section LaneFacts.

Variable ps : PyDict.t Probe.t.

Lemma running_count_bounds (time : Z) :
  0 <= running_count ps time <= Z.of_nat (length ps).
Proof.
  unfold running_count. split; [lia|]. apply inj_le.
  eapply Nat.le_trans; [apply length_filter|].
  unfold PyDict.values. by rewrite length_fmap.
Qed.

Lemma taken_witness (slots : gmap string Z) (time ypos : Z) :
  taken ps slots time ypos = true ->
  exists j, j ∈ PyDict.values ps
    /\ Entity.running_at j time = true
    /\ default (-1) (slots !! Entity.name j) = ypos.
Proof.
  unfold taken. intros H.
  destruct (filter _ (PyDict.values ps)) as [|j js] eqn:Hf; [done|].
  assert (Hj : j ∈ filter
            (fun j : Probe.t =>
               Entity.running_at j time && (default (-1) (slots !! Entity.name j) =? ypos) = true)
            (PyDict.values ps)) by (rewrite Hf; apply list_elem_of_here).
  apply list_elem_of_filter in Hj as [Hj Hin].
  apply andb_true_iff in Hj as [Hrun Hj]. apply Z.eqb_eq in Hj. by exists j.
Qed.

(** When every lane below [y] is taken at [time], at least [y] probes run
    at [time]. *)
Lemma taken_count (slots : gmap string Z) (time y : Z) :
  (forall y', 0 <= y' < y -> taken ps slots time y' = true) ->
  y <= running_count ps time.
Proof.
  intros Htaken. unfold running_count.
  set (F := filter (fun k : Probe.t => Entity.running_at k time = true) (PyDict.values ps)).
  assert (Hsub : seqZ 0 y ⊆+ (fun j => default (-1) (slots !! Entity.name j)) <$> F).
  { apply NoDup_submseteq; [apply NoDup_seqZ|].
    intros y' Hy'. apply elem_of_seqZ in Hy'.
    destruct (taken_witness slots time y' (Htaken y' ltac:(lia))) as (j & Hin & Hrun & Hslot).
    apply list_elem_of_fmap. exists j. split; [done|].
    apply list_elem_of_filter. by split. }
  apply submseteq_length in Hsub. rewrite length_seqZ, length_fmap in Hsub. lia.
Qed.

Lemma free_lane_spec (slots : gmap string Z) (time : Z) (fuel : nat) (y0 y : Z) :
  free_lane ps fuel slots time y0 = Some y ->
  y0 <= y
  /\ taken ps slots time y = false
  /\ (forall y', y0 <= y' < y -> taken ps slots time y' = true).
Proof.
  revert y0. induction fuel as [|fuel IH]; intros y0; [done|].
  simpl. destruct (taken ps slots time y0) eqn:Htaken.
  - intros H. destruct (IH _ H) as (Hle & Hfree & Hbelow).
    split; [lia|]. split; [done|]. intros y' Hy'.
    destruct (decide (y' = y0)) as [->|Hne]; [done|]. apply Hbelow. lia.
  - intros [= <-]. split; [lia|]. split; [done|]. intros y' Hy'. lia.
Qed.

Lemma place_run_spec (fuel : nat) (d : Probe.t) (acc acc' : gmap string Z * list rect)
    (r : Run.t) :
  place_run ps fuel d acc r = Some acc' ->
  exists y, acc' = (<[Entity.name d := y]> acc.1, acc.2 ++ [(Entity.name d, r, y)])
    /\ 0 <= y <= running_count ps (Run.start_time r)
    /\ taken ps acc.1 (Run.start_time r) y = false.
Proof.
  unfold place_run.
  destruct (free_lane ps fuel acc.1 (Run.start_time r) 0) as [y|] eqn:Hfree; simpl; [|done].
  intros [= <-]. exists y. split; [done|].
  destruct (free_lane_spec _ _ _ _ _ Hfree) as (Hle & Hnot & Hbelow).
  split; [|done]. split; [done|]. by eapply taken_count.
Qed.

Lemma place_runs_spec (fuel : nat) (d : Probe.t) (rs : list Run.t)
    (acc acc' : gmap string Z * list rect) :
  place_runs ps fuel d acc rs = Some acc' ->
  exists new, acc'.2 = acc.2 ++ new
    /\ (fun x : rect => (x.1.1, x.1.2)) <$> new = (fun r => (Entity.name d, r)) <$> rs
    /\ Forall (fun x : rect => 0 <= x.2 <= running_count ps (Run.start_time x.1.2)) new.
Proof.
  revert acc. induction rs as [|r rs IH]; intros acc.
  - intros [= <-]. exists []. by rewrite app_nil_r.
  - simpl. destruct (place_run ps fuel d acc r) as [acc1|] eqn:Hrun; simpl; [|done].
    intros H. destruct (place_run_spec _ _ _ _ _ Hrun) as (y & -> & Hy & _).
    destruct (IH _ H) as (new & Hnew & Hproj & Hbound). simpl in Hnew.
    exists ((Entity.name d, r, y) :: new). split_and!.
    + by rewrite Hnew, <- app_assoc.
    + rewrite !fmap_cons. by rewrite Hproj.
    + by constructor.
Qed.

Lemma place_probes_spec (fuel : nat) (ds : list Probe.t)
    (acc acc' : gmap string Z * list rect) :
  place_probes ps fuel acc ds = Some acc' ->
  exists new, acc'.2 = acc.2 ++ new
    /\ (fun x : rect => (x.1.1, x.1.2)) <$> new
       = mjoin ((fun d => (fun r => (Entity.name d, r)) <$> Entity.runs d) <$> ds)
    /\ Forall (fun x : rect => 0 <= x.2 <= running_count ps (Run.start_time x.1.2)) new.
Proof.
  revert acc. induction ds as [|d ds IH]; intros acc.
  - intros [= <-]. exists []. by rewrite app_nil_r.
  - simpl. destruct (place_runs ps fuel d acc (Entity.runs d)) as [acc1|] eqn:Hruns;
      simpl; [|done].
    intros H. destruct (place_runs_spec _ _ _ _ _ Hruns) as (new1 & Hnew1 & Hproj1 & Hb1).
    destruct (IH _ H) as (new2 & Hnew2 & Hproj2 & Hb2).
    exists (new1 ++ new2). split_and!.
    + by rewrite Hnew2, Hnew1, <- app_assoc.
    + rewrite fmap_app, Hproj1, Hproj2. done.
    + by apply Forall_app.
Qed.

Lemma foldl_max_spec (l : list Z) (x : Z) :
  x <= foldl Z.max x l
  /\ Forall (fun y => y <= foldl Z.max x l) l
  /\ (forall bound, x <= bound -> Forall (fun y => y <= bound) l -> foldl Z.max x l <= bound).
Proof.
  revert x. induction l as [|y l IH]; intros x; simpl.
  - split; [lia|]. split; [constructor|]. done.
  - destruct (IH (Z.max x y)) as (Hx & Hall & Hb). split; [lia|]. split.
    + constructor; [lia|done].
    + intros bound Hxb Hl. apply Forall_cons in Hl as [Hy Hl]. apply Hb; [lia|done].
Qed.

Lemma max_par_loop_spec (todo : list Probe.t) (acc : Z) :
  Forall sound_entity todo ->
  0 <= acc <= Z.of_nat (length ps) ->
  exists m, max_par_loop ps acc todo = Ok m
    /\ acc <= m <= Z.of_nat (length ps)
    /\ Forall (fun p => Forall (fun r => running_count ps (Run.start_time r) <= m)
                          (Entity.runs p)) todo.
Proof.
  intros Hs. revert acc. induction Hs as [|p todo [Hne _] _ IH]; intros acc Hacc.
  - exists acc. split; [done|]. split; [lia|constructor].
  - simpl. destruct (Entity.runs p) as [|r rs] eqn:Hruns; [done|].
    rewrite fmap_cons. cbn [py_max]. rewrite bind_Ok.
    set (m1 := foldl Z.max (running_count ps (Run.start_time r))
                 ((fun r0 => running_count ps (Run.start_time r0)) <$> rs)).
    destruct (foldl_max_spec ((fun r0 => running_count ps (Run.start_time r0)) <$> rs)
                (running_count ps (Run.start_time r))) as (Hx & Hall & Hb).
    fold m1 in Hx, Hall, Hb.
    assert (Hm1 : m1 <= Z.of_nat (length ps)).
    { apply Hb; [apply running_count_bounds|].
      apply Forall_fmap, Forall_true. intros r0. apply running_count_bounds. }
    destruct (IH (Z.max acc m1)) as (m & Hm & Hle & Hrest); [lia|].
    exists m. split; [done|]. split; [lia|]. constructor; [|done].
    rewrite Hruns. constructor; [lia|]. rewrite Forall_fmap in Hall.
    eapply Forall_impl; [exact Hall|]. intros r0 Hr0. simpl in Hr0. lia.
Qed.

End LaneFacts.

(** X14: the lane search is a first fit.  For any probes, any lanes
    recorded so far and any instant it ends within its bound on a lane
    that is not taken at that instant, every lane below it is taken, and
    the lane is at most the number of probes that run at that instant,
    hence at most the number of probes. *)
Theorem free_lane_first_fit (ps : PyDict.t Probe.t) (slots : gmap string Z) (time : Z) :
  exists y, free_lane ps (lanes_bound ps) slots time 0 = Some y
    /\ 0 <= y <= running_count ps time
    /\ running_count ps time <= Z.of_nat (length ps)
    /\ taken ps slots time y = false
    /\ (forall y', 0 <= y' < y -> taken ps slots time y' = true).
Proof.
  destruct (free_lane_total ps slots time) as [y Hy]. exists y.
  destruct (free_lane_spec ps _ _ _ _ _ Hy) as (Hle & Hfree & Hbelow).
  split_and!; try done.
  - by eapply taken_count.
  - apply running_count_bounds.
Qed.

Lemma first_start_key (p : Probe.t) :
  sound_entity p ->
  Entity.first_start_time p = Ok (from_option Run.start_time 0 (head (Entity.runs p))).
Proof.
  intros [Hne _]. unfold Entity.first_start_time, Entity.first_run.
  by destruct (Entity.runs p).
Qed.

Lemma plot_probes_spec (ps : PyDict.t Probe.t) :
  Forall sound_entity (PyDict.values ps) ->
  exists slots rects ds,
    plot_probes (lanes_bound ps) ps = Ok (Some (slots, rects))
    /\ ds ≡ₚ PyDict.values ps
    /\ StronglySorted (fun a b : Probe.t =>
                         from_option Run.start_time 0 (head (Entity.runs a))
                         <= from_option Run.start_time 0 (head (Entity.runs b))) ds
    /\ (fun x : rect => (x.1.1, x.1.2)) <$> rects
       = mjoin ((fun d => (fun r => (Entity.name d, r)) <$> Entity.runs d) <$> ds)
    /\ Forall (fun x : rect => 0 <= x.2 <= running_count ps (Run.start_time x.1.2)) rects.
Proof.
  intros Hs. unfold plot_probes.
  destruct (sorted_Ok Entity.first_start_time
              (fun p => from_option Run.start_time 0 (head (Entity.runs p))) false
              (PyDict.values ps)) as (ds & -> & Hperm & Hsorted).
  { eapply Forall_impl; [exact Hs|]. apply first_start_key. }
  rewrite bind_Ok.
  destruct (place_probes_total ps ds (∅, [])) as [[slots rects] Hplace]. rewrite Hplace.
  destruct (place_probes_spec ps _ _ _ _ Hplace) as (new & Hnew & Hproj & Hbound).
  simpl in Hnew. subst rects. by exists slots, new, ds.
Qed.

(** X15: the chart draws every run of every probe once.  The rectangles
    come probe by probe, the probes in order of first start time, and for
    each probe its runs in their order, each under the name of its probe;
    the lane of a rectangle is at least 0 and at most the number of probes
    that run at the start of its run. *)
Theorem every_run_is_drawn (randint : nat -> Z) (b : bool) (feed : list event) :
  let ps := probes (scan randint b feed) in
  exists slots rects ds,
    plot_probes (lanes_bound ps) ps = Ok (Some (slots, rects))
    /\ ds ≡ₚ PyDict.values ps
    /\ StronglySorted (fun a b : Probe.t =>
                         from_option Run.start_time 0 (head (Entity.runs a))
                         <= from_option Run.start_time 0 (head (Entity.runs b))) ds
    /\ (fun x : rect => (x.1.1, x.1.2)) <$> rects
       = mjoin ((fun d => (fun r => (Entity.name d, r)) <$> Entity.runs d) <$> ds)
    /\ Forall (fun x : rect => 0 <= x.2 <= running_count ps (Run.start_time x.1.2)) rects.
Proof.
  intros ps. apply plot_probes_spec.
  pose proof (scan_sound randint b feed) as Hs. by apply sound_split in Hs as (_ & Hp & _).
Qed.

(** X16: the chart is sized by the peak of parallel probes, and no lane
    lies above that peak.  The peak is computed, it is at least 0 and at
    most the number of probes; every rectangle of the chart has a lane
    between 0 and the peak, so its upper edge is at most the height of the
    chart. *)
Theorem lanes_within_peak (randint : nat -> Z) (b : bool) (feed : list event) :
  let ps := probes (scan randint b feed) in
  exists m slots rects,
    max_par_probes ps = Ok m
    /\ 0 <= m <= Z.of_nat (length ps)
    /\ plot_probes (lanes_bound ps) ps = Ok (Some (slots, rects))
    /\ Forall (fun x : rect => 0 <= x.2 <= m /\ probe_rect_y x.2 <= bootchart_height m) rects.
Proof.
  intros ps.
  pose proof (scan_sound randint b feed) as Hs. apply sound_split in Hs as (_ & Hp & _).
  fold ps in Hp.
  destruct (max_par_loop_spec ps (PyDict.values ps) 0 Hp) as (m & Hm & Hle & Hpeak); [lia|].
  destruct (plot_probes_spec ps Hp) as (slots & rects & ds & Hplot & Hperm & _ & Hproj & Hb).
  exists m, slots, rects. split_and!; [done|lia|lia|done|].
  apply Forall_forall. intros x Hx.
  assert (Hin : (x.1.1, x.1.2) ∈ (fun x : rect => (x.1.1, x.1.2)) <$> rects).
  { apply list_elem_of_fmap. by exists x. }
  rewrite Hproj in Hin. apply list_elem_of_join in Hin as (l & Hxl & Hl).
  apply list_elem_of_fmap in Hl as (d & -> & Hd).
  apply list_elem_of_fmap in Hxl as (r & Hxr & Hr). injection Hxr as _ Hxr.
  rewrite Hperm in Hd.
  pose proof (proj1 (Forall_forall _ _) Hpeak d Hd) as Hpd.
  pose proof (proj1 (Forall_forall _ _) Hpd r Hr) as Hpr.
  pose proof (proj1 (Forall_forall _ _) Hb x Hx) as Hbx.
  simpl in Hpr, Hbx. rewrite Hxr in Hbx.
  unfold probe_rect_y, bootchart_height. lia.
Qed.

(** ** The initcalls of the chart *)

Lemma mapM_pure {A B : Type} (g : A -> result B) (h : A -> B) (l : list A) :
  Forall (fun x => g x = Ok (h x)) l -> mapM g l = Ok (h <$> l).
Proof.
  induction 1 as [|x l Hx _ IH]; [done|].
  by rewrite mapM_cons, Hx, IH.
Qed.

(** X17: the chart draws the initcalls that took time, and only those.
    Its rectangles are those of the initcalls whose duration is positive,
    each once, in order of first start time, so their abscissas never
    decrease: the abscissa is the first start time divided by 100 and the
    width the duration divided by 100, at least 1.  An initcall whose
    duration is 0 is left out. *)
Theorem initcall_rects_drawn (randint : nat -> Z) (b : bool) (feed : list event) :
  let st := scan randint b feed in
  exists rects ds,
    initcall_rects st = Ok rects
    /\ ds ≡ₚ filter (fun i : Initcall.t => 0 < Entity.duration (Initcall.entity i))
               (PyDict.values (initcalls st))
    /\ Forall (fun d : Initcall.t =>
                 Entity.first_start_time (Initcall.entity d)
                 = Ok (from_option Run.start_time 0 (head (Entity.runs (Initcall.entity d)))))
              ds
    /\ rects
       = (fun d : Initcall.t =>
            (Entity.name (Initcall.entity d),
             from_option Run.start_time 0 (head (Entity.runs (Initcall.entity d))) `div` 100,
             Z.max (Entity.duration (Initcall.entity d) `div` 100) 1)) <$> ds
    /\ StronglySorted (fun x y : string * Z * Z => x.1.2 <= y.1.2) rects
    /\ Forall (fun x : string * Z * Z => 1 <= x.2) rects.
Proof.
  intros st.
  pose proof (scan_sound randint b feed) as Hs. apply sound_split in Hs as (Hi & _ & _).
  fold st in Hi. unfold initcall_rects.
  set (vals := base.filter (fun i : Initcall.t => 0 < Entity.duration (Initcall.entity i))
                 (PyDict.values (initcalls st))).
  assert (Hvals : Forall (fun d : Initcall.t =>
                    Entity.first_start_time (Initcall.entity d)
                    = Ok (from_option Run.start_time 0
                            (head (Entity.runs (Initcall.entity d))))) vals).
  { apply Forall_forall. intros d Hd. apply list_elem_of_filter in Hd as [_ Hd].
    apply first_start_key. by apply (proj1 (Forall_forall _ _) Hi). }
  destruct (sorted_Ok (fun k : Initcall.t => Entity.first_start_time (Initcall.entity k))
              (fun d => from_option Run.start_time 0 (head (Entity.runs (Initcall.entity d))))
              false vals Hvals) as (ds & -> & Hperm & Hsorted).
  rewrite bind_Ok.
  assert (Hds : Forall (fun d : Initcall.t =>
                  Entity.first_start_time (Initcall.entity d)
                  = Ok (from_option Run.start_time 0
                          (head (Entity.runs (Initcall.entity d))))) ds)
    by (by rewrite Hperm).
  eexists _, ds. split_and!; [|done|done|reflexivity| |].
  - apply mapM_pure. eapply Forall_impl; [exact Hds|]. intros d Hd. simpl. by rewrite Hd.
  - eapply StronglySorted_fmap; [|exact Hsorted]. intros x y Hxy. simpl.
    by apply Z.div_le_mono.
  - apply Forall_fmap, Forall_true. intros d. simpl. lia.
Qed.

(** ** The status cells *)

(** X18: the code that follows a status is printed with FAILED only.  When
    an entity has a code to print, both tables give it the status FAILED,
    and the code is the absolute value of its last return code, which is
    positive and is not 517; when it has none, neither table says
    FAILED. *)
Theorem code_only_when_failed (d : Entity.t) (code : option Z) :
  status_code d = Ok code ->
  match code with
  | Some c =>
      initcall_status d = Ok "FAILED"%string
      /\ probe_status d = Ok "FAILED"%string
      /\ Entity.retval d ≫= (fun rv => Ok (Z.abs rv)) = Ok c
      /\ 0 < c /\ c <> 517
  | None =>
      initcall_status d <> Ok "FAILED"%string /\ probe_status d <> Ok "FAILED"%string
  end.
Proof.
  unfold status_code, initcall_status, probe_status, Entity.failed, Entity.running,
    Entity.retval, Probe.deferred_probe_pending.
  destruct (Entity.last_run d) as [r|x]; simpl; [|done].
  unfold Run.failed, Run.running, Run.deferred, ERRCODE_PROBE_DEFER.
  destruct (Run.ended r), (Z.eqb_spec (Run.retval r) 0) as [H0|H0],
    (Z.eqb_spec (Z.abs (Run.retval r)) 517) as [H517|H517]; simpl; intros [= <-];
    split_and!; try done; lia.
Qed.

Lemma code_only_when_failed_witness :
  initcall_status (Entity.addRun (Entity.init "x" (0, 0, 0) 0 1 1 0) 5 9 4 (-22))
  = Ok "FAILED"%string.
Proof.
  exact (proj1 (code_only_when_failed
                  (Entity.addRun (Entity.init "x" (0, 0, 0) 0 1 1 0) 5 9 4 (-22))
                  (Some 22) eq_refl)).
Defined.
